(** * ComicDownloader: a shallow embedding of [comicdownloader/__init__.py]

    The per-URL pipeline of the downloader (image discovery, concurrent
    fetch and transcode, archive assembly, file-name derivation, progress
    bar) is translated function by function; [Module Legacy] holds what
    the older script [ComicDownloader.py] does differently.  The
    collaborators the program calls but does not define are modelled as
    follows:

    - [re]: a backtracking matcher over a regex syntax tree ([Module Re]);
    - the HTTP session and the image codec: an oracle [env] giving, for
      every URL, the parsed page and the outcome of fetching, decoding and
      re-encoding the image behind it;
    - [asyncio.gather]: result slots filled in completion order, for an
      arbitrary completion order;
    - [zipfile] and the disk: a finite map from paths to entry lists;
    - [float]: IEEE 754 binary64 from [SpecFloat].

    Python [str] is [string]; a character is a code point below 256. *)

From Stdlib Require Import ZArith Lia Ascii String SpecFloat.
From stdpp Require Import base option list gmap strings.

Local Open Scope string_scope.

(** ** Python exceptions and results *)

(** The text of the messages the program builds itself, with the values
    it interpolates. *)
Inductive message :=
| MsgDownloading (url : string)
    (* f"Encountered an error while downloading {self.url!r}" *)
| MsgNoImages (url : string)
    (* f"No images found for {url!r}" *)
| MsgNameNoMatch (url : string)
    (* f"Regular Expression for name did not match for {url!r}" *)
| MsgFormatSpec
    (* raised by format() on a malformed format specifier *)
| MsgNaNToInteger
    (* raised by math.ceil on a NaN *).

Inductive exn :=
| RuntimeError (msg : message)
| RuntimeErrorFrom (msg : message) (cause : exn)     (* raise ... from cause *)
| ValueError (msg : message)
| TypeError
| IndexError
| KeyError (key : string)
| AttributeError
| ZeroDivisionError
| OverflowError
| External (what : string).   (* an error raised inside a collaborator *)

Inductive result (A : Type) :=
| Ok (a : A)
| Raise (e : exn).
Arguments Ok {A} a.
Arguments Raise {A} e.

Definition rbind {A B} (r : result A) (f : A -> result B) : result B :=
  match r with
  | Ok a => f a
  | Raise e => Raise e
  end.

(** ** Python [str] operations *)

Module Str.

(** [s * n]: repetition; a count of zero or less gives the empty string. *)
Fixpoint repeat_nat (s : string) (n : nat) : string :=
  match n with
  | O => EmptyString
  | S n' => s ++ repeat_nat s n'
  end.

Definition mul (s : string) (n : Z) : string := repeat_nat s (Z.to_nat n).

(** [s.endswith(suffix)]: some tail of [s] is [suffix]. *)
Fixpoint endswith (s suffix : string) : bool :=
  String.eqb s suffix ||
  match s with
  | EmptyString => false
  | String _ s' => endswith s' suffix
  end.

(** [str.isspace] on code points below 256: U+0009..U+000D,
    U+001C..U+0020, U+0085 and U+00A0. *)
Definition is_space (c : ascii) : bool :=
  let n := nat_of_ascii c in
  (((9 <=? n) && (n <=? 13)) || ((28 <=? n) && (n <=? 32))
   || (n =? 133) || (n =? 160))%nat.

Fixpoint lstrip (s : string) : string :=
  match s with
  | EmptyString => EmptyString
  | String c s' => if is_space c then lstrip s' else s
  end.

Fixpoint rstrip (s : string) : string :=
  match s with
  | EmptyString => EmptyString
  | String c s' =>
      match rstrip s' with
      | EmptyString => if is_space c then EmptyString else String c EmptyString
      | r => String c r
      end
  end.

(** [s.strip()] *)
Definition strip (s : string) : string := rstrip (lstrip s).

(** [format(s, "0>w")] for a non-negative width [w]: left-pad with ['0']
    up to the minimum width [w]. *)
Definition pad0 (s : string) (w : nat) : string :=
  repeat_nat "0" (w - String.length s) ++ s.

(** [f"{s:0>{w}}"] with the width interpolated from an [int]: a negative
    [w] puts a sign into the format specifier, which [str] rejects.
    (Widths beyond the machine's limits are not modelled.) *)
Definition format_pad0 (s : string) (w : Z) : result string :=
  if (w <? 0)%Z then Raise (ValueError MsgFormatSpec)
  else Ok (pad0 s (Z.to_nat w)).

(** Every character of [s] is ['0']. *)
Fixpoint all_zeros (s : string) : bool :=
  match s with
  | EmptyString => true
  | String c s' => Ascii.eqb c "0" && all_zeros s'
  end.

End Str.

(** ** The [re] module *)

Module Re.

(** The fragment of the pattern syntax that is modelled. *)
Inductive regex :=
| Eps                                   (* the empty pattern *)
| Lit (c : ascii)                       (* a literal character *)
| Dot                                   (* .   : anything but a newline *)
| Digit                                 (* \d *)
| Class (negated : bool) (cs : list ascii)  (* [..] and [^..] *)
| Bol                                   (* ^ *)
| Eol                                   (* $ *)
| Cat (r1 r2 : regex)
| Alt (r1 r2 : regex)
| Star (r : regex)                      (* r*, greedy *)
| Plus (r : regex)                      (* r+, greedy *)
| Opt (r : regex)                       (* r?, greedy *)
| Group (r : regex).                    (* ( r ), capturing *)

(** Number of capturing groups; they are numbered from 1 by the position
    of their opening parenthesis. *)
Fixpoint ngroups (r : regex) : nat :=
  match r with
  | Cat r1 r2 | Alt r1 r2 => ngroups r1 + ngroups r2
  | Star r' | Plus r' | Opt r' => ngroups r'
  | Group r' => S (ngroups r')
  | _ => 0
  end.

(** Matcher state: whether the cursor is at the start of the subject,
    what is left of the subject, and the text last captured by group 1. *)
Record mstate := MState {
  at_start : bool;
  rest : string;
  group1 : option string
}.

Definition is_digit (c : ascii) : bool :=
  let n := nat_of_ascii c in ((48 <=? n) && (n <=? 57))%nat.

Definition newline : ascii := ascii_of_nat 10.

Definition in_class (c : ascii) (cs : list ascii) : bool :=
  existsb (Ascii.eqb c) cs.

(** Consume one character satisfying [p]. *)
Definition one (p : ascii -> bool) (st : mstate)
    (k : mstate -> option mstate) : option mstate :=
  match rest st with
  | String c s' =>
      if p c then k (MState false s' (group1 st)) else None
  | EmptyString => None
  end.

Definition first_of {A} (a b : option A) : option A :=
  match a with
  | Some x => Some x
  | None => b
  end.

Definition progressed (st st' : mstate) : bool :=
  (String.length (rest st') <? String.length (rest st))%nat.

(** Greedy repetition of [body]: try one more iteration first, fall back
    to the continuation.  After an iteration that consumed nothing the
    loop is left for the continuation, as [sre] does, so [n] = remaining
    length + 1 rounds are always enough. *)
Fixpoint star_loop (body : mstate -> (mstate -> option mstate) -> option mstate)
    (n : nat) (st : mstate) (k : mstate -> option mstate) : option mstate :=
  match n with
  | O => k st
  | S n' =>
      first_of
        (body st (fun st' =>
           if progressed st st' then star_loop body n' st' k else k st'))
        (k st)
  end.

(** [m r idx st k]: match [r] at the cursor of [st], then continue with
    [k]; [idx] is the number of the first group that opens inside [r].
    Backtracking is the [None] result of the continuation. *)
Fixpoint m (r : regex) (idx : nat) (st : mstate)
    (k : mstate -> option mstate) : option mstate :=
  match r with
  | Eps => k st
  | Lit c => one (Ascii.eqb c) st k
  | Dot => one (fun c => negb (Ascii.eqb c newline)) st k
  | Digit => one is_digit st k
  | Class neg cs => one (fun c => xorb neg (in_class c cs)) st k
  | Bol => if at_start st then k st else None
  | Eol =>
      if String.eqb (rest st) EmptyString
         || String.eqb (rest st) (String newline EmptyString)
      then k st else None
  | Cat r1 r2 => m r1 idx st (fun st' => m r2 (idx + ngroups r1) st' k)
  | Alt r1 r2 => first_of (m r1 idx st k) (m r2 (idx + ngroups r1) st k)
  | Star r' => star_loop (m r' idx) (S (String.length (rest st))) st k
  | Plus r' =>
      m r' idx st (fun st' =>
        star_loop (m r' idx) (S (String.length (rest st'))) st' k)
  | Opt r' => first_of (m r' idx st k) (k st)
  | Group r' =>
      m r' (S idx) st (fun st' =>
        k (if (idx =? 1)%nat
           then MState (at_start st') (rest st')
                  (Some (substring 0
                     (String.length (rest st) - String.length (rest st'))
                     (rest st)))
           else st'))
  end.

(** Try every start position from the left: [re.search] is not anchored. *)
Fixpoint search_from (r : regex) (at0 : bool) (s : string) : option mstate :=
  first_of
    (m r 1 (MState at0 s None) Some)
    match s with
    | EmptyString => None
    | String _ s' => search_from r false s'
    end.

(** A match object, as far as the program reads it. *)
Record rmatch := RMatch {
  pattern : regex;
  captured : option string     (* None: group 1 took no part *)
}.

(** [re.search(pattern, string)]; the subject may be Python's [None],
    which [re] rejects. *)
Definition search (r : regex) (subject : option string)
    : result (option rmatch) :=
  match subject with
  | None => Raise TypeError
  | Some s =>
      Ok (match search_from r true s with
          | Some st => Some (RMatch r (group1 st))
          | None => None
          end)
  end.

(** [match.group(1)]: [IndexError] when the pattern has no group. *)
Definition group_1 (mt : rmatch) : result (option string) :=
  if (ngroups (pattern mt) =? 0)%nat then Raise IndexError
  else Ok (captured mt).

End Re.

(** The patterns the program compiles by default. *)

(** [r"^.+/([^/]+)/?$"], the default of [--url-name-pattern]. *)
Definition default_url_name_pattern : Re.regex :=
  Re.Cat Re.Bol
    (Re.Cat (Re.Plus Re.Dot)
      (Re.Cat (Re.Lit "/")
        (Re.Cat (Re.Group (Re.Plus (Re.Class true ["/"%char])))
          (Re.Cat (Re.Opt (Re.Lit "/")) Re.Eol)))).

(** [r"(\d+)"], the stage added by [--number] and the default of
    [--number-pattern]. *)
Definition digits_pattern : Re.regex := Re.Group (Re.Plus Re.Digit).

(** ** The world the program acts on *)

Definition bytes := list Byte.byte.

(** [directory / name] of [pathlib], kept as the pair of its operands. *)
Definition path := (string * string)%type.
Definition path_div (directory name : string) : path := (directory, name).

(** A zip archive is the sequence of its entries, in the order written. *)
Definition zipfile := list (string * bytes).

(** What the program prints, one constructor per message, carrying the
    values the message interpolates. *)
Inductive line :=
| LBar (text : string)                       (* a rendered bar *)
| LProcessing (url : string)                 (* f"Processing {url!r}" *)
| LNotPresent (url number : option string)
    (* f"Url or number for image is not present: url = .., number = .." *)
| LDropped (url : string)
    (* f"Image with url = {url!r} will be dropped" *)
| LNoNumber (url number : string)
    (* f"No number found for image {url!r} in {number!r}" *)
| LErase (lines : nat).
    (* the erase sequence, once per line, printed without a newline *)

Inductive request :=
| GetPage (url : string)       (* session.get(url) *)
| GetImage (url : string).     (* session.get(url, stream=True) *)

Record world := World {
  disk : gmap path zipfile;
  stdout : list line;
  requests : list request
}.

Definition empty_world : world := World ∅ [] [].

(** Effectful code: a state and error monad over the world. *)
Definition M (A : Type) : Type := world -> world * result A.

Definition ret {A} (a : A) : M A := fun w => (w, Ok a).

Definition raise {A} (e : exn) : M A := fun w => (w, Raise e).

Definition bind {A B} (c : M A) (f : A -> M B) : M B :=
  fun w =>
    match c w with
    | (w', Ok a) => f a w'
    | (w', Raise e) => (w', Raise e)
    end.

Definition lift {A} (r : result A) : M A := fun w => (w, r).

Notation "x <- c ;; k" := (bind c (fun x => k))
  (at level 100, c at next level, right associativity).
Notation "c ;;; k" := (bind c (fun _ => k))
  (at level 100, right associativity).

Definition print (l : line) : M unit :=
  fun w => (World (disk w) (stdout w ++ [l]) (requests w), Ok tt).

Definition send (r : request) : M unit :=
  fun w => (World (disk w) (stdout w) (requests w ++ [r]), Ok tt).

(** ** Collaborators *)

(** An HTML node, as far as the program reads it: [node.attributes], a
    dict from attribute names to optional values. *)
Record Node := { attributes : gmap string (option string) }.

(** [d.get(key)] on such a dict: [None] for a missing key and for an
    attribute without a value alike. *)
Definition dict_get (d : gmap string (option string)) (key : string)
    : option string :=
  mjoin (d !! key).

(** What happens to one image URL between request and JPEG bytes. *)
Inductive fetch_outcome :=
| FetchFails (e : exn)     (* session.get or response.acontent raises *)
| DecodeFails (e : exn)    (* Image.open raises *)
| EncodeFails (e : exn)    (* image.save(buffer, format="jpeg") raises *)
| Jpeg (data : bytes).

(** ** Data model *)

Module Img.
Record t := Make { filename : string; url : string }.
End Img.

Record ImageConfig := {
  selector : string;
  number_attr : string;
  url_attr : string;
  number_pattern : Re.regex
}.

(** The network and the scheduler, as an oracle. *)
Record env := Env {
  (* session.get(url), then HTMLParser(response.text).css: the nodes a
     selector matches, in document order *)
  get_page : string -> result (string -> list Node);
  (* the fate of an image request *)
  fetch : string -> fetch_outcome;
  (* the order in which the download tasks of one archive complete,
     as indices into the task list *)
  completion : list Img.t -> list nat
}.

(** Python truth value of an optional string: [None] and the empty string
    are false. *)
Definition truthy (v : option string) : bool :=
  match v with
  | None => false
  | Some s => negb (String.eqb s EmptyString)
  end.

(** ** [class Cleared] *)

Module Cleared.
Record t := Make { _data : list line; _lines : nat }.

(** [Cleared] applied to its arguments: the arguments joined by newlines, and the number
    of lines that makes: one more than the number of newlines, or 0
    without arguments. *)
Definition init (args : list line) : t :=
  Make args (match args with [] => 0 | _ => (length args - 1) + 1 end).

(** [print(msg)] *)
Definition print_str (c : t) : M unit :=
  fun w => (World (disk w) (stdout w ++ _data c) (requests w), Ok tt).

Definition clear_str (c : t) : line := LErase (_lines c).
End Cleared.

(** ** [Img.download_jpeg] *)

Definition download_jpeg (e : env) (img : Img.t) : result bytes :=
  match fetch e (Img.url img) with
  | FetchFails c | DecodeFails c =>
      Raise (RuntimeErrorFrom (MsgDownloading (Img.url img)) c)
  | EncodeFails c => Raise c
  | Jpeg data => Ok data
  end.

(** ** [asyncio.gather] *)

(** Tasks settle in the order [order]; a result goes to the slot of its
    task, the first exception ends the wait. *)
Fixpoint run_tasks {A} (tasks : list (result A)) (order : list nat)
    (slots : list (option A)) : result (list (option A)) :=
  match order with
  | [] => Ok slots
  | i :: order' =>
      match tasks !! i with
      | Some (Raise e) => Raise e
      | Some (Ok v) => run_tasks tasks order' (<[i := Some v]> slots)
      | None => run_tasks tasks order' slots
      end
  end.

(** [await asyncio.gather] of the tasks: the tasks complete in the order
    [schedule]; a task the schedule leaves out completes after those, so
    that every task settles.  The result lists the slots by position. *)
Definition gather {A} (tasks : list (result A)) (schedule : list nat)
    : result (list A) :=
  rbind
    (run_tasks tasks (schedule ++ seq 0 (length tasks))
       (replicate (length tasks) None))
    (fun slots => Ok (omap id slots)).

(** ** [class Archive] *)

Module Archive.
Record t := Make {
  filename : string;
  imgs : list Img.t;
  _imgs_data : option (list bytes)   (* field(init=False): unset at first *)
}.

(** [Archive(filename, imgs)] *)
Definition init (filename : string) (imgs : list Img.t) : t :=
  Make filename imgs None.

(** [download]: one task per image, all started, then gathered.  The
    archive is returned as the call leaves it. *)
Definition download (e : env) (self : t) : world -> world * t * result unit :=
  fun w =>
    let w' := World (disk w) (stdout w)
                (requests w ++ map (fun i => GetImage (Img.url i)) (imgs self)) in
    let tasks := map (download_jpeg e) (imgs self) in
    match gather tasks (completion e (imgs self)) with
    | Ok data => (w', Make (filename self) (imgs self) (Some data), Ok tt)
    | Raise x => (w', self, Raise x)
    end.

(** The entries [save] writes: [zip(self.imgs, self._imgs_data)]. *)
Definition entries (self : t) (data : list bytes) : zipfile :=
  zip (map Img.filename (imgs self)) data.

(** [save]: [ZipFile(directory / self.filename, "w")] creates or
    truncates the file, then each pair is written in turn.  Reading an
    unset [_imgs_data] raises inside the [with] block, which still
    closes the (empty) archive. *)
Definition save (self : t) (directory : string) : M unit :=
  fun w =>
    let p := path_div directory (filename self) in
    match _imgs_data self with
    | None =>
        (World (<[p := []]> (disk w)) (stdout w) (requests w),
         Raise AttributeError)
    | Some data =>
        (World (<[p := entries self data]> (disk w)) (stdout w) (requests w),
         Ok tt)
    end.
End Archive.

(** The entry list stored at a path, if the file exists: what
    [ZipFile.infolist] enumerates, entries of one name included as often
    as they were written.  Extracting the archive is [extractall]. *)
Definition unzip (w : world) (p : path) : option zipfile := disk w !! p.

Notation "'let*' x := c 'in' k" := (rbind c (fun x => k))
  (at level 10, x name, c at level 100, k at level 200).

(** ** [img_from_node] and [find_images] *)

Definition img_from_node (node : Node) (config : ImageConfig)
    : M (option Img.t) :=
  let number := dict_get (attributes node) (number_attr config) in
  let url := dict_get (attributes node) (url_attr config) in
  if negb (truthy url) || negb (truthy number) then
    print (LNotPresent url number) ;;; ret None
  else
    match url, number with
    | Some url_, Some number_ =>
        if Str.endswith url_ "png" then
          print (LDropped url_) ;;; ret None
        else
          found <- lift (Re.search (number_pattern config) (Some number_)) ;;
          match found with
          | None => print (LNoNumber url_ number_) ;;; ret None
          | Some match_ =>
              g <- lift (Re.group_1 match_) ;;
              match g with
              | None => raise TypeError     (* format(None, "0>3") *)
              | Some g => ret (Some (Img.Make (Str.pad0 g 3 ++ ".jpg")
                                        (Str.strip url_)))
              end
          end
    | _, _ => ret None      (* excluded by the test above *)
    end.

(** The list comprehension over the generator: nodes are visited in
    order, and the images that are not [None] are kept. *)
Fixpoint images_of (nodes : list Node) (config : ImageConfig)
    : M (list Img.t) :=
  match nodes with
  | [] => ret []
  | node :: nodes' =>
      image <- img_from_node node config ;;
      images <- images_of nodes' config ;;
      ret (match image with
           | Some i => i :: images
           | None => images
           end)
  end.

Definition find_images (e : env) (url : string) (config : ImageConfig)
    : M (list Img.t) :=
  send (GetPage url) ;;;
  css <- lift (get_page e url) ;;
  images_of (css (selector config)) config.

(** ** [sequential_search] and [get_name] *)

(** [data] becomes [match.group(1)] after each stage, which is [None]
    when the group took no part in the match. *)
Fixpoint sequential_search (data : option string) (regexs : list Re.regex)
    : result (option string) :=
  match regexs with
  | [] => Ok data
  | regex :: regexs' =>
      let* found := Re.search regex data in
      match found with
      | None => Ok None
      | Some match_ =>
          let* data' := Re.group_1 match_ in
          sequential_search data' regexs'
      end
  end.

Definition get_name (url : string) (regexs : list Re.regex)
    (padding : option Z) : result string :=
  let* name := sequential_search (Some url) regexs in
  match name with
  | None => Raise (ValueError (MsgNameNoMatch url))
  | Some name =>
      match padding with
      | Some p =>
          if (p =? 0)%Z then Ok (name ++ ".cbz")
          else let* padded := Str.format_pad0 name p in Ok (padded ++ ".cbz")
      | None => Ok (name ++ ".cbz")
      end
  end.

(** ** [float] and [bar] *)

Module Float.
Definition prec : Z := 53.
Definition emax : Z := 1024.

(** [float(n)]: round to nearest, ties to even. *)
Definition of_int (n : Z) : result spec_float :=
  match binary_normalize prec emax n 0 false with
  | S754_infinity _ => Raise OverflowError
  | f => Ok f
  end.

(** [a / b] on ints.  Python rounds the exact quotient once; for
    operands of magnitude up to 2^53, as lengths and indices are, that
    is the quotient of the converted operands. *)
Definition truediv (a b : Z) : result spec_float :=
  if (b =? 0)%Z then Raise ZeroDivisionError
  else
    let* fa := of_int a in
    let* fb := of_int b in
    Ok (SFdiv prec emax fa fb).

(** [x * n] for a float and an int. *)
Definition mul_int (x : spec_float) (n : Z) : result spec_float :=
  let* fn := of_int n in Ok (SFmul prec emax x fn).

(** [math.ceil(x)] *)
Definition ceil (x : spec_float) : result Z :=
  match x with
  | S754_zero _ => Ok 0%Z
  | S754_finite s m e =>
      let v := cond_Zopp s (Zpos m) in
      Ok (if (0 <=? e)%Z then v * 2 ^ e else - ((- v) / 2 ^ (- e)))%Z
  | S754_infinity _ => Raise OverflowError
  | S754_nan => Raise (ValueError MsgNaNToInteger)
  end.
End Float.

(** The default [filler], U+2588 (in UTF-8), and the default [empty]. *)
Definition default_filler : string := "█".
Definition default_empty : string := " ".

(** [taken] of [bar]: [ceil(completed * (1 / overall * width))]. *)
Definition bar_taken (completed overall width : Z) : result Z :=
  let* inv := Float.truediv 1 overall in
  let* step := Float.mul_int inv width in
  let* c := Float.of_int completed in
  Float.ceil (SFmul Float.prec Float.emax c step).

Definition bar (completed overall width : Z) (filler empty : string)
    : result string :=
  let* taken := bar_taken completed overall width in
  Ok ("[" ++ Str.mul filler taken ++ Str.mul empty (width - taken) ++ "]").

(** ** [main]: the argument record and [actions] *)

Record Args := {
  URLs : list string;
  directory : string;
  padding : option Z;
  regexs : list Re.regex;
  config : ImageConfig
}.

(** [regexs] as [main] builds it from [--url-name-pattern] and
    [--number]. *)
Definition make_regexs (url_name_pattern : Re.regex) (number : bool)
    : list Re.regex :=
  [url_name_pattern] ++ (if number then [digits_pattern] else []).

(** [await archive.download(session)] inside [actions]: the archive as
    the call leaves it, or the exception. *)
Definition download_archive (e : env) (archive : Archive.t) : M Archive.t :=
  fun w =>
    match Archive.download e archive w with
    | (w', archive', Ok _) => (w', Ok archive')
    | (w', _, Raise x) => (w', Raise x)
    end.

(** The body of the loop of [actions], for the URL at index [idx]. *)
Definition process_url (e : env) (args : Args) (idx : nat) (url : string)
    : M unit :=
  b <- lift (bar (Z.of_nat idx) (Z.of_nat (length (URLs args))) 100
               default_filler default_empty) ;;
  let msg := Cleared.init [LBar b; LProcessing url] in
  Cleared.print_str msg ;;;
  images <- find_images e url (config args) ;;
  if (length images =? 0)%nat then raise (RuntimeError (MsgNoImages url))
  else
    name <- lift (get_name url (regexs args) (padding args)) ;;
    let archive := Archive.init name images in
    archive <- download_archive e archive ;;
    Archive.save archive (directory args) ;;;
    print (Cleared.clear_str msg).

(** [for idx, url in enumerate(...)], from index [idx] on. *)
Fixpoint for_urls (e : env) (args : Args) (idx : nat) (urls : list string)
    : M unit :=
  match urls with
  | [] => ret tt
  | url :: urls' =>
      process_url e args idx url ;;;
      for_urls e args (S idx) urls'
  end.

(** [actions]: an exception leaves the loop, the session block and
    [asyncio.run]; nothing in between catches it. *)
Definition actions (e : env) (args : Args) : M unit :=
  for_urls e args 0 (URLs args) ;;;
  b <- lift (bar (Z.of_nat (length (URLs args)))
               (Z.of_nat (length (URLs args))) 100
               default_filler default_empty) ;;
  print (LBar b).

(** ** [class Cleared], over text

    The same class with its arguments as strings that may hold newlines
    of their own. *)

Module ClearedText.

Definition newline_str : string := String Re.newline EmptyString.

(** ["\n".join(args)] *)
Fixpoint join (args : list string) : string :=
  match args with
  | [] => EmptyString
  | a :: rest =>
      match rest with
      | [] => a
      | _ => a ++ newline_str ++ join rest
      end
  end.

(** [s.count("\n")] *)
Fixpoint count_newlines (s : string) : nat :=
  match s with
  | EmptyString => 0
  | String c s' =>
      (if Ascii.eqb c Re.newline then 1 else 0) + count_newlines s'
  end.

Record t := Make { _data : string; _lines : nat }.

Definition init (args : list string) : t :=
  Make (join args)
       (match args with
        | [] => 0
        | _ => count_newlines (join args) + 1
        end).

(** ["\033[1A\x1b[2K"]: cursor up one line, erase the line. *)
Definition erase : string :=
  String (ascii_of_nat 27) ("[1A" ++ String (ascii_of_nat 27) "[2K").

Definition clear_str (c : t) : string := Str.repeat_nat erase (_lines c).

(** What [print(msg)] writes: [str(msg)] and a newline. *)
Definition printed (c : t) : string := _data c ++ newline_str.

End ClearedText.

(** ** The older script, [ComicDownloader.py]

    Its [Archive] class, [sequential_search] and [get_name] read as in
    the package; what differs is translated here. *)

Module Legacy.

(** [d[key]] on the attribute dict *)
Definition dict_index (d : gmap string (option string)) (key : string)
    : result (option string) :=
  match d !! key with
  | Some v => Ok v
  | None => Raise (KeyError key)
  end.

(** No test on [png] here. *)
Definition img_from_node (node : Node) (config : ImageConfig)
    : M (option Img.t) :=
  number <- lift (dict_index (attributes node) (number_attr config)) ;;
  url <- lift (dict_index (attributes node) (url_attr config)) ;;
  if negb (truthy url) || negb (truthy number) then
    print (LNotPresent url number) ;;; ret None
  else
    match url, number with
    | Some url_, Some number_ =>
        found <- lift (Re.search (number_pattern config) (Some number_)) ;;
        match found with
        | None => print (LNoNumber url_ number_) ;;; ret None
        | Some match_ =>
            g <- lift (Re.group_1 match_) ;;
            match g with
            | None => raise TypeError
            | Some g => ret (Some (Img.Make (Str.pad0 g 3 ++ ".jpg")
                                      (Str.strip url_)))
            end
        end
    | _, _ => ret None
    end.

Fixpoint images_of (nodes : list Node) (config : ImageConfig)
    : M (list Img.t) :=
  match nodes with
  | [] => ret []
  | node :: nodes' =>
      image <- img_from_node node config ;;
      images <- images_of nodes' config ;;
      ret (match image with
           | Some i => i :: images
           | None => images
           end)
  end.

Definition find_images (e : env) (url : string) (config : ImageConfig)
    : M (list Img.t) :=
  send (GetPage url) ;;;
  css <- lift (get_page e url) ;;
  images_of (css (selector config)) config.

(** No [try] here: every failure propagates as it is. *)
Definition download_jpeg (e : env) (img : Img.t) : result bytes :=
  match fetch e (Img.url img) with
  | FetchFails c | DecodeFails c | EncodeFails c => Raise c
  | Jpeg data => Ok data
  end.

Definition download (e : env) (self : Archive.t) : M Archive.t :=
  fun w =>
    let w' := World (disk w) (stdout w)
                (requests w
                 ++ map (fun i => GetImage (Img.url i)) (Archive.imgs self)) in
    match gather (map (download_jpeg e) (Archive.imgs self))
            (completion e (Archive.imgs self)) with
    | Ok data =>
        (w', Ok (Archive.Make (Archive.filename self) (Archive.imgs self)
                   (Some data)))
    | Raise x => (w', Raise x)
    end.

(** The body of the loop of [actions]: no bar, and no test for an empty
    image list. *)
Definition process_url (e : env) (args : Args) (url : string) : M unit :=
  print (LProcessing url) ;;;
  images <- find_images e url (config args) ;;
  name <- lift (get_name url (regexs args) (padding args)) ;;
  archive <- download e (Archive.init name images) ;;
  Archive.save archive (directory args).

Fixpoint for_urls (e : env) (args : Args) (urls : list string) : M unit :=
  match urls with
  | [] => ret tt
  | url :: urls' => process_url e args url ;;; for_urls e args urls'
  end.

Definition actions (e : env) (args : Args) : M unit :=
  for_urls e args (URLs args).

End Legacy.




(** ** Vocabulary of the statements *)

(** The world after printing the lines [ls]. *)
Definition log (w : world) (ls : list line) : world :=
  World (disk w) (stdout w ++ ls) (requests w).

(** What a node yields and what it prints do not depend on the world. *)
Definition node_result (config : ImageConfig) (node : Node)
    : result (option Img.t) :=
  snd (img_from_node node config empty_world).

Definition node_log (config : ImageConfig) (node : Node) : list line :=
  stdout (fst (img_from_node node config empty_world)).

(** Every character of [s] is whitespace. *)
Fixpoint all_space (s : string) : bool :=
  match s with
  | EmptyString => true
  | String c s' => Str.is_space c && all_space s'
  end.

(** The image a node contributes, if any. *)
Definition node_image (config : ImageConfig) (node : Node) : option Img.t :=
  match node_result config node with
  | Ok (Some i) => Some i
  | _ => None
  end.

(** The exception of the first node that raises, in document order. *)
Fixpoint first_error (config : ImageConfig) (nodes : list Node) : option exn :=
  match nodes with
  | [] => None
  | node :: nodes' =>
      match node_result config node with
      | Raise x => Some x
      | Ok _ => first_error config nodes'
      end
  end.

Ltac unfold_m :=
  unfold bind, ret, raise, lift, print, send, Cleared.print_str in *.

(** Each slot is still empty or holds the value of its own task. *)
Definition slots_inv {A} (vs : list A) (slots : list (option A)) : Prop :=
  length slots = length vs /\
  forall i v, vs !! i = Some v ->
    slots !! i = Some None \/ slots !! i = Some (Some v).

(** ** Sample data *)

(** The defaults [main] gives to [--image-selector], [--number-attr],
    [--url-attr] and [--number-pattern]. *)
Definition default_config : ImageConfig :=
  {| selector := "img"; number_attr := "id"; url_attr := "src";
     number_pattern := digits_pattern |}.

(** [<img id=.. src=..>] *)
Definition img_node (id src : string) : Node :=
  {| attributes := <["id" := Some id]> (<["src" := Some src]> ∅) |}.

(** [<img src=..>] *)
Definition img_node_without_id (src : string) : Node :=
  {| attributes := <["src" := Some src]> ∅ |}.

(** A server whose images all decode but cannot be written as JPEG (the
    codec refuses palette images, for one). *)
Definition gif_env : env :=
  Env (fun _ => Ok (fun _ => []))
      (fun _ => EncodeFails (External "cannot write mode P as JPEG"))
      (fun _ => []).

Definition one_gif : Archive.t :=
  Archive.init "001.cbz" [Img.Make "001.jpg" "https://h/a.gif"].

(** A server that answers every image request with the same two bytes,
    the tasks completing last first. *)
Definition jpeg_env : env :=
  Env (fun _ => Ok (fun _ => [img_node "1" "https://h/a.jpg";
                              img_node "2" "https://h/b.jpg"]))
      (fun _ => Jpeg [Byte.xff; Byte.xd8])
      (fun imgs => rev (seq 0 (length imgs))).

Definition two_pages : Archive.t :=
  Archive.init "001.cbz"
    [Img.Make "001.jpg" "https://h/a.jpg"; Img.Make "002.jpg" "https://h/b.jpg"].

(** A site whose page [https://x/1/] shows no image and whose other
    pages show one, served as two bytes. *)
Definition site_env : env :=
  Env (fun url =>
         if String.eqb url "https://x/1/" then Ok (fun _ => [])
         else Ok (fun _ => [img_node "1" "https://h/a.jpg"]))
      (fun _ => Jpeg [Byte.xff; Byte.xd8])
      (fun _ => []).

(** The arguments of a run with every option at its default, written
    into [out]. *)
Definition default_args (urls : list string) : Args :=
  {| URLs := urls; directory := "out"; padding := Some 3%Z;
     regexs := make_regexs default_url_name_pattern true;
     config := default_config |}.

(** The text of a bar that renders. *)
Definition bar_text (completed overall : Z) : string :=
  match bar completed overall 100 default_filler default_empty with
  | Ok b => b
  | Raise _ => EmptyString
  end.

(** The number of filled cells the bar is meant to have: the exact
    [completed / overall * width], rounded up. *)
Definition exact_taken (completed overall width : Z) : Z :=
  ((completed * width + overall - 1) / overall)%Z.

(** [bar_taken] agrees with [exact_taken] for every [completed] from 0 to
    [overall], at width 100. *)
Definition bar_exact_for (overall : nat) : bool :=
  forallb
    (fun completed =>
       match bar_taken (Z.of_nat completed) (Z.of_nat overall) 100 with
       | Ok t => (t =? exact_taken (Z.of_nat completed) (Z.of_nat overall) 100)%Z
       | Raise _ => false
       end)
    (seq 0 (S overall)).

(** ** Vocabulary of the further statements *)

(** The first character of [s] is whitespace. *)
Definition first_char_space (s : string) : bool :=
  match s with
  | String c _ => Str.is_space c
  | EmptyString => false
  end.

(** The last character of [s] is whitespace. *)
Fixpoint last_char_space (s : string) : bool :=
  match s with
  | EmptyString => false
  | String c EmptyString => Str.is_space c
  | String _ s' => last_char_space s'
  end.

(** Every character of [s] satisfies [p]. *)
Fixpoint forall_chars (p : ascii -> bool) (s : string) : bool :=
  match s with
  | EmptyString => true
  | String c s' => p c && forall_chars p s'
  end.

(** [c] does not occur in [s]. *)
Definition lacks (c : ascii) (s : string) : bool :=
  forall_chars (fun d => negb (Ascii.eqb d c)) s.

(** Every character of [s] is a decimal digit. *)
Definition all_digits (s : string) : bool := forall_chars Re.is_digit s.

(** No character of [s] is a decimal digit. *)
Definition no_digit (s : string) : bool :=
  forall_chars (fun c => negb (Re.is_digit c)) s.

(** [s] is empty or starts with a character that fails [p]. *)
Definition stops (p : ascii -> bool) (s : string) : bool :=
  match s with
  | EmptyString => true
  | String c _ => negb (p c)
  end.

(** What a greedy repetition of a one-character pattern amounts to: the
    continuation is tried after the longest run of [p] first, then after
    each shorter one. *)
Fixpoint greedy (p : ascii -> bool) (s : string) (at0 : bool)
    (g : option string) (k : Re.mstate -> option Re.mstate)
    : option Re.mstate :=
  match s with
  | String c s' =>
      if p c
      then Re.first_of (greedy p s' false g k) (k (Re.MState at0 s g))
      else k (Re.MState at0 s g)
  | EmptyString => k (Re.MState at0 EmptyString g)
  end.

(** The node has both attributes, not empty, a URL that does not end in
    [png], and a number that the number pattern matches. *)
Definition number_found (config : ImageConfig) (node : Node) : bool :=
  match dict_get (attributes node) (url_attr config),
        dict_get (attributes node) (number_attr config) with
  | Some u, Some n =>
      negb (String.eqb u EmptyString) && negb (String.eqb n EmptyString)
      && negb (Str.endswith u "png")
      && match Re.search_from (number_pattern config) true n with
         | Some _ => true
         | None => false
         end
  | _, _ => false
  end.

(** The page requests among [rs], in order. *)
Definition page_requests (rs : list request) : list string :=
  omap (fun r => match r with GetPage u => Some u | GetImage _ => None end) rs.

(** The defaults with a number pattern that has no group, [\d+]. *)
Definition groupless_config : ImageConfig :=
  {| selector := "img"; number_attr := "id"; url_attr := "src";
     number_pattern := Re.Plus Re.Digit |}.

(** The part of the default name pattern after [^.+]: [/([^/]+)/?$]. *)
Definition url_name_tail : Re.regex :=
  Re.Cat (Re.Lit "/")
    (Re.Cat (Re.Group (Re.Plus (Re.Class true ["/"%char])))
      (Re.Cat (Re.Opt (Re.Lit "/")) Re.Eol)).

(** The predicates of [.] and of [[^/]]. *)
Definition is_dot (c : ascii) : bool := negb (Ascii.eqb c Re.newline).
Definition not_slash (c : ascii) : bool :=
  xorb true (Re.in_class c ["/"%char]).

(** The JPEG bytes behind an image, when its request, decoding and
    encoding all succeed. *)
Definition jpeg_of (e : env) (img : Img.t) : bytes :=
  match fetch e (Img.url img) with
  | Jpeg data => data
  | _ => []
  end.

(** A server whose second image cannot be fetched and whose third cannot
    be decoded; the third task settles first. *)
Definition flaky_env : env :=
  Env (fun _ => Ok (fun _ => []))
      (fun url =>
         if String.eqb url "https://h/b.jpg" then FetchFails (External "timeout")
         else if String.eqb url "https://h/c.jpg"
              then DecodeFails (External "cannot identify image file")
              else Jpeg [Byte.xff; Byte.xd8])
      (fun _ => [0; 2; 1]).

Definition three_pages : Archive.t :=
  Archive.init "001.cbz"
    [Img.Make "001.jpg" "https://h/a.jpg"; Img.Make "002.jpg" "https://h/b.jpg";
     Img.Make "003.jpg" "https://h/c.jpg"].

(** Archives after a successful download. *)
Definition one_page_done : Archive.t :=
  Archive.Make "001.cbz" [Img.Make "001.jpg" "https://h/a.jpg"]
    (Some [[Byte.xff; Byte.xd8]]).

Definition two_pages_done : Archive.t :=
  Archive.Make "001.cbz"
    [Img.Make "001.jpg" "https://h/a.jpg"; Img.Make "002.jpg" "https://h/b.jpg"]
    (Some [[Byte.xff; Byte.xd8]; [Byte.xff; Byte.xd9]]).

(** [bar_taken] is the exact number of cells or one more, for every
    [completed] from 0 to [overall], at width 100. *)
Definition bar_within_one (overall : nat) : bool :=
  forallb
    (fun completed =>
       match bar_taken (Z.of_nat completed) (Z.of_nat overall) 100 with
       | Ok t =>
           andb
             (exact_taken (Z.of_nat completed) (Z.of_nat overall) 100 <=? t)%Z
             (t <=? exact_taken (Z.of_nat completed) (Z.of_nat overall) 100 + 1)%Z
       | Raise _ => false
       end)
    (seq 0 (S overall)).

(** The newlines inside the strings of [args], all together. *)
Fixpoint inner_newlines (args : list string) : nat :=
  match args with
  | [] => 0
  | a :: rest => ClearedText.count_newlines a + inner_newlines rest
  end.

(** * Properties *)

(** ** Strings *)

Section StringFacts.

Lemma append_cons (c : ascii) (a b : string) :
  String c a ++ b = String c (a ++ b).
Proof. reflexivity. Qed.

Lemma append_nil_l (b : string) : EmptyString ++ b = b.
Proof. reflexivity. Qed.

Lemma length_append (a b : string) :
  String.length (a ++ b) = String.length a + String.length b.
Proof.
  induction a as [|c a IH]; [reflexivity|].
  rewrite append_cons. simpl. now rewrite IH.
Qed.

Lemma append_nil_r (a : string) : a ++ EmptyString = a.
Proof.
  induction a as [|c a IH]; [reflexivity|].
  now rewrite append_cons, IH.
Qed.

Lemma append_assoc (a b c : string) : (a ++ b) ++ c = a ++ (b ++ c).
Proof.
  induction a as [|x a IH]; [reflexivity|].
  now rewrite !append_cons, IH.
Qed.

Lemma repeat_zero_length (n : nat) :
  String.length (Str.repeat_nat "0" n) = n.
Proof.
  induction n as [|n IH]; [reflexivity|].
  cbn [Str.repeat_nat]. rewrite append_cons, append_nil_l. simpl.
  now rewrite IH.
Qed.

Lemma repeat_zero_all_zeros (n : nat) :
  Str.all_zeros (Str.repeat_nat "0" n) = true.
Proof.
  induction n as [|n IH]; [reflexivity|].
  cbn [Str.repeat_nat]. rewrite append_cons, append_nil_l. exact IH.
Qed.

Lemma pad0_length (s : string) (w : nat) :
  String.length (Str.pad0 s w) = Nat.max w (String.length s).
Proof.
  unfold Str.pad0. rewrite length_append, repeat_zero_length. lia.
Qed.

Lemma endswith_unfold (s suffix : string) :
  Str.endswith s suffix =
  String.eqb s suffix ||
  match s with
  | EmptyString => false
  | String _ s' => Str.endswith s' suffix
  end.
Proof. destruct s; reflexivity. Qed.

Lemma endswith_append (a suffix : string) :
  Str.endswith (a ++ suffix) suffix = true.
Proof.
  induction a as [|c a IH].
  - rewrite append_nil_l, endswith_unfold, String.eqb_refl. reflexivity.
  - rewrite append_cons, endswith_unfold, IH. apply orb_true_r.
Qed.

Lemma endswith_inv (s suffix : string) :
  Str.endswith s suffix = true -> exists pre, s = pre ++ suffix.
Proof.
  induction s as [|c s IH]; rewrite endswith_unfold; intros H;
    apply orb_true_iff in H as [H | H].
  - apply String.eqb_eq in H. now exists EmptyString.
  - discriminate.
  - apply String.eqb_eq in H. now exists EmptyString.
  - destruct (IH H) as [pre ->]. now exists (String c pre).
Qed.

End StringFacts.

(** ** The monad *)

Lemma log_nil (w : world) : log w [] = w.
Proof. destruct w; unfold log; simpl. now rewrite app_nil_r. Qed.

Lemma log_log (w : world) (l1 l2 : list line) :
  log (log w l1) l2 = log w (l1 ++ l2).
Proof. unfold log; simpl. now rewrite app_assoc. Qed.

Lemma img_from_node_log (node : Node) (config : ImageConfig) (w : world) :
  img_from_node node config w =
  (log w (node_log config node), node_result config node).
Proof.
  unfold node_result, node_log, img_from_node.
  destruct (negb (truthy _) || negb (truthy _)); [reflexivity|].
  destruct (dict_get _ (url_attr config)) as [u|];
    [|now rewrite log_nil].
  destruct (dict_get _ (number_attr config)) as [n|];
    [|now rewrite log_nil].
  destruct (Str.endswith u "png"); [reflexivity|].
  unfold_m. simpl.
  destruct (Re.search_from _ true n) as [st|]; simpl; [|reflexivity].
  unfold Re.group_1; simpl.
  destruct (Re.ngroups _ =? 0)%nat; [now rewrite log_nil|].
  destruct (Re.group1 st); now rewrite log_nil.
Qed.

(** ** Name resolution *)

Lemma search_from_unfold (r : Re.regex) (at0 : bool) (s : string) :
  Re.search_from r at0 s =
  Re.first_of (Re.m r 1 (Re.MState at0 s None) Some)
    match s with
    | EmptyString => None
    | String _ s' => Re.search_from r false s'
    end.
Proof. destruct s; reflexivity. Qed.

(** A match that starts anywhere in the subject is enough for
    [search_from] to find one. *)
Lemma search_from_unanchored (r : Re.regex) (pre t : string) (at0 : bool) :
  is_Some (Re.m r 1
             (Re.MState (if String.eqb pre EmptyString then at0 else false)
                t None) Some) ->
  is_Some (Re.search_from r at0 (pre ++ t)).
Proof.
  revert at0. induction pre as [|c pre IH]; intros at0 H.
  - rewrite append_nil_l, search_from_unfold. simpl in H.
    destruct H as [st H]. rewrite H. simpl. eauto.
  - rewrite append_cons, search_from_unfold.
    destruct (Re.m r 1 (Re.MState at0 (String c (pre ++ t)) None) Some);
      simpl; [eauto|].
    apply IH. simpl in H. now destruct (String.eqb pre EmptyString).
Qed.

Lemma sequential_search_prefix (data : option string)
    (rs1 rs2 : list Re.regex) (s : string) :
  sequential_search data rs1 = Ok (Some s) ->
  sequential_search data (rs1 ++ rs2) = sequential_search (Some s) rs2.
Proof.
  revert data. induction rs1 as [|r rs1 IH]; intros data H; simpl in *.
  - now inversion H.
  - destruct (Re.search r data) as [[mt|]|]; simpl in *; try discriminate.
    destruct (Re.group_1 mt) as [d|]; simpl in *; try discriminate.
    now apply IH.
Qed.

Lemma get_name_of_name (url : string) (regexs : list Re.regex)
    (padding : option Z) (name : string) :
  sequential_search (Some url) regexs = Ok (Some name) ->
  get_name url regexs padding =
  match padding with
  | Some p =>
      if (p =? 0)%Z then Ok (name ++ ".cbz")
      else rbind (Str.format_pad0 name p) (fun padded => Ok (padded ++ ".cbz"))
  | None => Ok (name ++ ".cbz")
  end.
Proof. intros H. unfold get_name. rewrite H. reflexivity. Qed.

(** C5. Name resolution runs the chain from the URL: once the stages [rs]
    have reduced the URL to the working value [s], the next stage [r]
    searches [s] from every start position; when it finds no match,
    [get_name] raises the [ValueError] that carries the URL, and when it
    matches, the working value becomes its first capture group.  With the
    default pattern, the [--number] stage and padding 3, the URL
    [https://example.com/chapter/42/] resolves to [042.cbz]. *)
Theorem name_resolution_chain (url : string) (rs : list Re.regex)
    (r : Re.regex) (rest : list Re.regex) (padding : option Z) (s : string)
    (Hprefix : sequential_search (Some url) rs = Ok (Some s)) :
  sequential_search (Some url) [] = Ok (Some url) /\
  match Re.search_from r true s with
  | None =>
      get_name url (rs ++ r :: rest) padding
      = Raise (ValueError (MsgNameNoMatch url))
  | Some st =>
      Re.ngroups r <> 0 ->
      sequential_search (Some url) (rs ++ [r]) = Ok (Re.group1 st)
  end /\
  (forall pre t,
      is_Some (Re.m r 1 (Re.MState (String.eqb pre EmptyString) t None) Some) ->
      is_Some (Re.search_from r true (pre ++ t))) /\
  get_name "https://example.com/chapter/42/"
    (make_regexs default_url_name_pattern true) (Some 3%Z)
  = Ok "042.cbz".
Proof.
  split; [reflexivity|]. split; [|split].
  - destruct (Re.search_from r true s) as [st|] eqn:Hs.
    + intros Hg. rewrite (sequential_search_prefix _ _ _ _ Hprefix).
      simpl. rewrite Hs. simpl. unfold Re.group_1. simpl.
      apply Nat.eqb_neq in Hg. now rewrite Hg.
    + unfold get_name.
      rewrite (sequential_search_prefix _ _ _ _ Hprefix).
      simpl. rewrite Hs. reflexivity.
  - intros pre t H. apply search_from_unanchored.
    now destruct (String.eqb pre EmptyString).
  - vm_compute. reflexivity.
Qed.

Lemma name_resolution_chain_witness :
  sequential_search (Some "https://example.com/chapter/42/")
    [default_url_name_pattern] = Ok (Some "42") /\
  (Re.ngroups digits_pattern <> 0 ->
   sequential_search (Some "https://example.com/chapter/42/")
     ([default_url_name_pattern] ++ [digits_pattern]) = Ok (Some "42")).
Proof.
  split; [reflexivity|].
  exact (proj1 (proj2
           (name_resolution_chain "https://example.com/chapter/42/"
              [default_url_name_pattern] digits_pattern [] (Some 3%Z) "42"
              eq_refl))).
Defined.

(** C6. For a resolved name and a padding width [w > 0], [get_name] puts
    ['0'] characters in front of the name, as text, up to the minimum
    width [w], and appends [.cbz]: exactly as many as the name falls
    short of [w], so none when the name is longer than [w]; the padded
    part is at least [w] long, and exactly [w] when the name is not
    longer than [w].  Padding [0] and no padding give the name itself
    plus [.cbz]. *)
Theorem get_name_padding (url : string) (regexs : list Re.regex)
    (name : string) (w : Z)
    (Hname : sequential_search (Some url) regexs = Ok (Some name))
    (Hw : (0 < w)%Z) :
  (exists zeros,
      get_name url regexs (Some w) = Ok ((zeros ++ name) ++ ".cbz") /\
      Str.all_zeros zeros = true /\
      (w <= Z.of_nat (String.length (zeros ++ name)))%Z /\
      ((Z.of_nat (String.length name) <= w)%Z ->
       Z.of_nat (String.length (zeros ++ name)) = w) /\
      String.length zeros = Z.to_nat w - String.length name /\
      ((w < Z.of_nat (String.length name))%Z -> zeros = EmptyString)) /\
  get_name url regexs (Some 0%Z) = Ok (name ++ ".cbz") /\
  get_name url regexs None = Ok (name ++ ".cbz").
Proof.
  rewrite !(get_name_of_name _ _ _ _ Hname). split; [|split; reflexivity].
  exists (Str.repeat_nat "0" (Z.to_nat w - String.length name)).
  assert (Hz : (w =? 0)%Z = false) by lia.
  assert (Hn : (w <? 0)%Z = false) by lia.
  rewrite Hz. unfold Str.format_pad0. rewrite Hn. simpl.
  split; [reflexivity|]. split; [apply repeat_zero_all_zeros|].
  rewrite length_append, repeat_zero_length.
  split; [lia|]. split; [lia|]. split; [reflexivity|].
  intros Hlong.
  replace (Z.to_nat w - String.length name) with 0 by lia. reflexivity.
Qed.

Lemma get_name_padding_witness :
  sequential_search (Some "https://example.com/chapter/7/")
    (make_regexs default_url_name_pattern true) = Ok (Some "7") /\
  (0 < 3)%Z /\
  exists zeros,
    get_name "https://example.com/chapter/7/"
      (make_regexs default_url_name_pattern true) (Some 3%Z)
    = Ok ((zeros ++ "7") ++ ".cbz") /\
    Str.all_zeros zeros = true /\
    (3 <= Z.of_nat (String.length (zeros ++ "7")))%Z /\
    ((Z.of_nat (String.length "7") <= 3)%Z ->
     Z.of_nat (String.length (zeros ++ "7")) = 3%Z) /\
    String.length zeros = Z.to_nat 3 - String.length "7" /\
    ((3 < Z.of_nat (String.length "7"))%Z -> zeros = EmptyString).
Proof.
  split; [reflexivity|]. split; [reflexivity|].
  exact (proj1 (get_name_padding "https://example.com/chapter/7/"
                  (make_regexs default_url_name_pattern true) "7" 3%Z
                  eq_refl eq_refl)).
Defined.

(** ** Image location *)

Lemma img_from_node_falsy (node : Node) (config : ImageConfig) (w : world) :
  truthy (dict_get (attributes node) (number_attr config)) = false \/
  truthy (dict_get (attributes node) (url_attr config)) = false ->
  img_from_node node config w =
  (log w [LNotPresent (dict_get (attributes node) (url_attr config))
            (dict_get (attributes node) (number_attr config))],
   Ok None).
Proof.
  intros H. unfold img_from_node.
  destruct H as [H | H]; rewrite H; simpl; rewrite ?orb_true_r; reflexivity.
Qed.

(** The successful path of [img_from_node], read backwards. *)
Lemma img_from_node_some (node : Node) (config : ImageConfig) (w w' : world)
    (img : Img.t) :
  img_from_node node config w = (w', Ok (Some img)) ->
  exists url_ number_ st g,
    dict_get (attributes node) (url_attr config) = Some url_ /\
    dict_get (attributes node) (number_attr config) = Some number_ /\
    Str.endswith url_ "png" = false /\
    Re.search_from (number_pattern config) true number_ = Some st /\
    Re.group1 st = Some g /\
    img = Img.Make (Str.pad0 g 3 ++ ".jpg") (Str.strip url_) /\
    w' = w.
Proof.
  unfold img_from_node.
  destruct (negb (truthy _) || negb (truthy _)); [discriminate|].
  destruct (dict_get _ (url_attr config)) as [u|]; [|discriminate].
  destruct (dict_get _ (number_attr config)) as [n|]; [|discriminate].
  destruct (Str.endswith u "png") eqn:Hpng; [discriminate|].
  unfold_m. simpl.
  destruct (Re.search_from _ true n) as [st|] eqn:Hs; simpl; [|discriminate].
  unfold Re.group_1; simpl.
  destruct (Re.ngroups _ =? 0)%nat; [discriminate|].
  destruct (Re.group1 st) as [g|] eqn:Hg; [|discriminate].
  intros H. inversion H; subst. exists u, n, st, g. repeat split; auto.
Qed.

Lemma images_of_result (config : ImageConfig) (nodes : list Node) (w : world) :
  snd (images_of nodes config w) =
  match first_error config nodes with
  | Some x => Raise x
  | None => Ok (omap (node_image config) nodes)
  end.
Proof.
  revert w. induction nodes as [|node nodes IH]; intros w; [reflexivity|].
  cbn [images_of first_error omap list_omap]. unfold bind at 1.
  rewrite img_from_node_log. unfold node_image at 1.
  destruct (node_result config node) as [image|x]; [|reflexivity].
  unfold bind at 1.
  specialize (IH (log w (node_log config node))).
  destruct (images_of nodes config _) as [w1 [images|x]]; simpl in IH;
    destruct (first_error config nodes); try discriminate;
    inversion IH; subst; [|reflexivity].
  destruct image; reflexivity.
Qed.

(** [images_of] only prints. *)
Lemma images_of_world (config : ImageConfig) (nodes : list Node) (w : world) :
  exists ls, fst (images_of nodes config w) = log w ls.
Proof.
  revert w. induction nodes as [|node nodes IH]; intros w.
  - exists []. simpl. now rewrite log_nil.
  - cbn [images_of]. unfold bind at 1. rewrite img_from_node_log.
    destruct (node_result config node) as [image|x].
    + unfold bind at 1.
      destruct (IH (log w (node_log config node))) as [ls Hls].
      exists (node_log config node ++ ls)%list. rewrite <- log_log, <- Hls.
      destruct (images_of nodes config _) as [w1 [images|x]]; reflexivity.
    + exists (node_log config node). reflexivity.
Qed.





(** C7, as the code has it. The file name of every image that
    [img_from_node] produces is the first capture group of the
    number-pattern match, with ['0'] characters in front up to the minimum
    width 3, followed by [.jpg]: the part before [.jpg] is at least 3
    long, exactly 3 when the group has at most 3 characters, and the group
    itself when it has more. *)
Theorem img_filename_padded (node : Node) (config : ImageConfig)
    (w w' : world) (img : Img.t)
    (H : img_from_node node config w = (w', Ok (Some img))) :
  exists number st g zeros,
    dict_get (attributes node) (number_attr config) = Some number /\
    Re.search_from (number_pattern config) true number = Some st /\
    Re.group1 st = Some g /\
    Img.filename img = (zeros ++ g) ++ ".jpg" /\
    Str.all_zeros zeros = true /\
    3 <= String.length (zeros ++ g) /\
    (String.length g <= 3 -> String.length (zeros ++ g) = 3) /\
    (3 < String.length g -> zeros ++ g = g).
Proof.
  apply img_from_node_some in H
    as (u & n & st & g & Hu & Hn & Hpng & Hs & Hg & -> & _).
  exists n, st, g, (Str.repeat_nat "0" (3 - String.length g)).
  repeat split; auto.
  - apply repeat_zero_all_zeros.
  - rewrite length_append, repeat_zero_length. lia.
  - rewrite length_append, repeat_zero_length. lia.
  - intros Hlen. replace (3 - String.length g) with 0 by lia. reflexivity.
Qed.

Lemma img_filename_padded_witness :
  img_from_node (img_node "7" "https://h/a.jpg") default_config empty_world
  = (empty_world, Ok (Some (Img.Make "007.jpg" "https://h/a.jpg"))) /\
  exists number st g zeros,
    dict_get (attributes (img_node "7" "https://h/a.jpg"))
      (number_attr default_config) = Some number /\
    Re.search_from (number_pattern default_config) true number = Some st /\
    Re.group1 st = Some g /\
    Img.filename (Img.Make "007.jpg" "https://h/a.jpg")
    = (zeros ++ g) ++ ".jpg" /\
    Str.all_zeros zeros = true /\
    3 <= String.length (zeros ++ g) /\
    (String.length g <= 3 -> String.length (zeros ++ g) = 3) /\
    (3 < String.length g -> zeros ++ g = g).
Proof.
  split; [reflexivity|].
  exact (img_filename_padded (img_node "7" "https://h/a.jpg") default_config
           empty_world empty_world (Img.Make "007.jpg" "https://h/a.jpg")
           eq_refl).
Defined.

(** C7, as stated, fails: a number of four digits gives a
    file name whose part before [.jpg] is four characters long. *)
Lemma img_filename_longer_than_3 :
  exists img,
    img_from_node (img_node "1234" "https://h/p.jpg") default_config
      empty_world = (empty_world, Ok (Some img)) /\
    Img.filename img = "1234" ++ ".jpg" /\
    String.length "1234" <> 3.
Proof.
  exists (Img.Make "1234.jpg" "https://h/p.jpg").
  split; [reflexivity|]. split; [reflexivity|]. discriminate.
Qed.

(** ** The [png] test and [strip] *)

Lemma space_not_p (c : ascii) : Str.is_space c = true -> c <> "p"%char.
Proof. intros H ->. discriminate. Qed.

Lemma endswith_all_space (ws : string) :
  all_space ws = true -> Str.endswith ws "png" = false.
Proof.
  induction ws as [|c ws IH]; intros H; [reflexivity|].
  simpl in H. apply andb_true_iff in H as [Hc Hws].
  rewrite endswith_unfold, (IH Hws), orb_false_r.
  apply String.eqb_neq. intros Heq. inversion Heq; subst. discriminate.
Qed.

Lemma endswith_trailing_space (a ws : string) :
  ws <> EmptyString -> all_space ws = true ->
  Str.endswith (a ++ ws) "png" = false.
Proof.
  intros Hne Hsp. induction a as [|c a IH].
  - rewrite append_nil_l. now apply endswith_all_space.
  - rewrite append_cons, endswith_unfold, IH, orb_false_r.
    apply String.eqb_neq. intros Heq. inversion Heq as [[Hc Ht]].
    destruct a as [|x [|y [|z a]]]; rewrite ?append_cons, ?append_nil_l in Ht.
    + subst ws. discriminate.
    + inversion Ht; subst. discriminate.
    + inversion Ht as [[Hx Hy Hw]]. now apply Hne.
    + discriminate.
Qed.

Lemma lstrip_keeps_suffix (b t : string) (c : ascii) :
  Str.is_space c = false ->
  exists b', Str.lstrip (b ++ String c t) = b' ++ String c t.
Proof.
  intros Hc. induction b as [|d b IH].
  - exists EmptyString. rewrite !append_nil_l. simpl. now rewrite Hc.
  - rewrite append_cons. cbn [Str.lstrip].
    destruct (Str.is_space d); [exact IH|].
    exists (String d b). now rewrite append_cons.
Qed.

Lemma rstrip_all_space (ws : string) :
  all_space ws = true -> Str.rstrip ws = EmptyString.
Proof.
  induction ws as [|c ws IH]; intros H; [reflexivity|].
  simpl in H. apply andb_true_iff in H as [Hc Hws].
  cbn [Str.rstrip]. now rewrite (IH Hws), Hc.
Qed.

Lemma rstrip_trailing_space (x ws : string) :
  all_space ws = true -> Str.rstrip (x ++ ws) = Str.rstrip x.
Proof.
  intros Hsp. induction x as [|c x IH].
  - rewrite append_nil_l. now apply rstrip_all_space.
  - rewrite append_cons. cbn [Str.rstrip]. now rewrite IH.
Qed.

Lemma rstrip_nonspace_last (y : string) (c : ascii) :
  Str.is_space c = false ->
  Str.rstrip (y ++ String c EmptyString) = y ++ String c EmptyString.
Proof.
  intros Hc. induction y as [|d y IH].
  - rewrite append_nil_l. cbn [Str.rstrip]. now rewrite Hc.
  - rewrite append_cons. cbn [Str.rstrip]. rewrite IH.
    destruct y; reflexivity.
Qed.

Lemma strip_png_then_space (body ws : string) :
  all_space ws = true ->
  exists b', Str.strip (body ++ "png" ++ ws) = b' ++ "png".
Proof.
  intros Hsp. unfold Str.strip.
  change ("png" ++ ws) with (String "p" ("ng" ++ ws)).
  destruct (lstrip_keeps_suffix body ("ng" ++ ws) "p" eq_refl) as [b' ->].
  exists b'.
  change (String "p" ("ng" ++ ws)) with ("png" ++ ws).
  rewrite <- append_assoc, (rstrip_trailing_space _ _ Hsp).
  change "png" with ("pn" ++ String "g" EmptyString).
  rewrite <- append_assoc. now apply rstrip_nonspace_last.
Qed.

(** C10, as the code has it. For a node whose URL attribute ends in
    [png] followed by whitespace, the [png] test, made on the raw
    attribute, does not fire; when the number attribute is non-empty and
    the number pattern matches it with its first group taking part, the
    node yields an image, whose URL is the stripped attribute and ends in
    [png]. *)
Theorem png_test_on_raw_url (node : Node) (config : ImageConfig) (w : world)
    (u body ws number : string) (st : Re.mstate) (g : string)
    (Hu : dict_get (attributes node) (url_attr config) = Some u)
    (Hshape : u = body ++ "png" ++ ws)
    (Hws : ws <> EmptyString)
    (Hsp : all_space ws = true)
    (Hn : dict_get (attributes node) (number_attr config) = Some number)
    (Hne : number <> EmptyString)
    (Hs : Re.search_from (number_pattern config) true number = Some st)
    (Hgr : Re.ngroups (number_pattern config) <> 0)
    (Hg : Re.group1 st = Some g) :
  Str.endswith u "png" = false /\
  img_from_node node config w
  = (w, Ok (Some (Img.Make (Str.pad0 g 3 ++ ".jpg") (Str.strip u)))) /\
  Str.endswith (Str.strip u) "png" = true.
Proof.
  assert (Hpng : Str.endswith u "png" = false).
  { subst u. rewrite <- append_assoc. now apply endswith_trailing_space. }
  assert (Hu0 : u <> EmptyString).
  { subst u. destruct body; discriminate. }
  split; [exact Hpng|]. split.
  - unfold img_from_node. rewrite Hu, Hn. simpl.
    apply String.eqb_neq in Hu0, Hne. rewrite Hu0, Hne. simpl.
    rewrite Hpng. unfold_m. simpl. rewrite Hs. simpl.
    unfold Re.group_1. simpl. apply Nat.eqb_neq in Hgr. rewrite Hgr, Hg.
    reflexivity.
  - subst u. destruct (strip_png_then_space body ws Hsp) as [b' ->].
    apply endswith_append.
Qed.

Lemma png_test_on_raw_url_witness :
  Str.endswith ("https://h/a." ++ "png" ++ " ") "png" = false /\
  img_from_node (img_node "5" "https://h/a.png ") default_config empty_world
  = (empty_world, Ok (Some (Img.Make (Str.pad0 "5" 3 ++ ".jpg")
                              (Str.strip ("https://h/a." ++ "png" ++ " "))))) /\
  Str.endswith (Str.strip ("https://h/a." ++ "png" ++ " ")) "png" = true.
Proof.
  refine (png_test_on_raw_url (img_node "5" "https://h/a.png ") default_config
            empty_world ("https://h/a." ++ "png" ++ " ") "https://h/a." " "
            "5" (Re.MState false EmptyString (Some "5")) "5"
            eq_refl eq_refl _ eq_refl eq_refl _ eq_refl _ eq_refl);
    discriminate.
Defined.

(** C10, as stated, fails: a node whose URL attribute ends
    in [png] followed by a space is skipped all the same when it has no
    number attribute. *)
Lemma png_then_space_node_skipped :
  dict_get (attributes (img_node_without_id "https://h/a.png "))
    (url_attr default_config) = Some ("https://h/a." ++ "png" ++ " ") /\
  img_from_node (img_node_without_id "https://h/a.png ") default_config
    empty_world
  = (log empty_world [LNotPresent (Some "https://h/a.png ") None], Ok None).
Proof. split; reflexivity. Qed.

(** ** [gather] *)

Section Gather.

Context {A : Type}.

Lemma run_tasks_all_ok (vs : list A) (order : list nat) :
  forall slots : list (option A),
    slots_inv vs slots ->
    exists slots',
      run_tasks (map Ok vs) order slots = Ok slots' /\
      slots_inv vs slots' /\
      forall i v, vs !! i = Some v ->
        i ∈ order \/ slots !! i = Some (Some v) ->
        slots' !! i = Some (Some v).
Proof.
  induction order as [|i0 order IH]; intros slots [Hlen Hinv].
  - exists slots. split; [reflexivity|]. split; [now split|].
    intros i v Hv [Hin | Hs]; [|exact Hs]. now apply elem_of_nil in Hin.
  - cbn [run_tasks]. rewrite list_lookup_fmap.
    destruct (vs !! i0) as [v0|] eqn:Hv0; simpl.
    + assert (Hi0 : i0 < length slots).
      { rewrite Hlen. now apply lookup_lt_Some in Hv0. }
      destruct (IH (<[i0 := Some v0]> slots)) as (slots' & Hrun & Hinv' & Hfill).
      { split; [now rewrite length_insert|].
        intros i v Hv. destruct (decide (i = i0)) as [->|Hne].
        - right. rewrite list_lookup_insert_eq by exact Hi0. congruence.
        - rewrite list_lookup_insert_ne by congruence. now apply Hinv. }
      exists slots'. split; [exact Hrun|]. split; [exact Hinv'|].
      intros i v Hv Hor. apply Hfill; [exact Hv|].
      destruct (decide (i = i0)) as [->|Hne].
      * right. rewrite list_lookup_insert_eq by exact Hi0. congruence.
      * destruct Hor as [Hin | Hs].
        -- left. apply elem_of_cons in Hin as [?|?]; [contradiction|done].
        -- right. now rewrite list_lookup_insert_ne by congruence.
    + destruct (IH slots) as (slots' & Hrun & Hinv' & Hfill); [now split|].
      exists slots'. split; [exact Hrun|]. split; [exact Hinv'|].
      intros i v Hv Hor. apply Hfill; [exact Hv|].
      destruct Hor as [Hin | Hs]; [|now right].
      apply elem_of_cons in Hin as [->|?]; [congruence|now left].
Qed.

(** When every task returns, [gather] returns the values by position. *)
Lemma gather_all_ok (vs : list A) (schedule : list nat) :
  gather (map Ok vs) schedule = Ok vs.
Proof.
  unfold gather. rewrite length_map.
  destruct (run_tasks_all_ok vs (schedule ++ seq 0 (length vs))
              (replicate (length vs) None))
    as (slots' & Hrun & [Hlen Hinv] & Hfill).
  { split; [apply length_replicate|].
    intros i v Hv. left. apply lookup_replicate_2.
    now apply lookup_lt_Some in Hv. }
  rewrite Hrun. simpl. f_equal.
  assert (Hs : slots' = map Some vs).
  { apply list_eq. intros i. rewrite list_lookup_fmap.
    destruct (vs !! i) as [v|] eqn:Hv; simpl.
    - apply Hfill with (v := v); [exact Hv|]. left.
      apply elem_of_app. right. apply elem_of_seq.
      apply lookup_lt_Some in Hv. lia.
    - apply lookup_ge_None. rewrite Hlen. now apply lookup_ge_None in Hv. }
  rewrite Hs. clear. induction vs as [|v vs IH]; [reflexivity|].
  cbn. f_equal. exact IH.
Qed.

Lemma run_tasks_raises (tasks : list (result A)) (order : list nat) :
  forall (slots : list (option A)) i x,
    i ∈ order -> tasks !! i = Some (Raise x) ->
    exists j y,
      j ∈ order /\ tasks !! j = Some (Raise y) /\
      run_tasks tasks order slots = Raise y.
Proof.
  induction order as [|i0 order IH]; intros slots i x Hin Hx.
  - now apply elem_of_nil in Hin.
  - cbn [run_tasks].
    destruct (tasks !! i0) as [[v|y]|] eqn:H0.
    + apply elem_of_cons in Hin as [->|Hin]; [congruence|].
      destruct (IH (<[i0 := Some v]> slots) i x Hin Hx) as (j & y & ? & ? & ?).
      exists j, y. split; [now apply elem_of_cons; right|]. now split.
    + exists i0, y. split; [apply elem_of_cons; now left|]. now split.
    + apply elem_of_cons in Hin as [->|Hin]; [congruence|].
      destruct (IH slots i x Hin Hx) as (j & y & ? & ? & ?).
      exists j, y. split; [now apply elem_of_cons; right|]. now split.
Qed.

(** When a task raises, [gather] raises the exception of a task. *)
Lemma gather_raises (tasks : list (result A)) (schedule : list nat) i x :
  tasks !! i = Some (Raise x) ->
  exists j y, tasks !! j = Some (Raise y) /\ gather tasks schedule = Raise y.
Proof.
  intros Hx. unfold gather.
  destruct (run_tasks_raises tasks (schedule ++ seq 0 (length tasks))
              (replicate (length tasks) None) i x)
    as (j & y & _ & Hy & Hrun); [|exact Hx|].
  - apply elem_of_app. right. apply elem_of_seq.
    apply lookup_lt_Some in Hx. lia.
  - exists j, y. split; [exact Hy|]. now rewrite Hrun.
Qed.

Lemma tasks_dichotomy (tasks : list (result A)) :
  (exists vs, tasks = map Ok vs) \/
  (exists i x, tasks !! i = Some (Raise x)).
Proof.
  induction tasks as [|[v|x] tasks IH].
  - left. now exists [].
  - destruct IH as [[vs ->] | (i & x & Hx)].
    + left. now exists (v :: vs).
    + right. now exists (S i), x.
  - right. now exists 0, x.
Qed.

End Gather.

(** ** [Archive.download] and [Archive.save] *)

Lemma download_jpeg_ok (e : env) (img : Img.t) (d : bytes) :
  download_jpeg e img = Ok d -> fetch e (Img.url img) = Jpeg d.
Proof.
  unfold download_jpeg. destruct (fetch e (Img.url img)); congruence.
Qed.

Lemma download_jpeg_raise (e : env) (img : Img.t) (x : exn) :
  download_jpeg e img = Raise x ->
  (exists c,
      x = RuntimeErrorFrom (MsgDownloading (Img.url img)) c /\
      (fetch e (Img.url img) = FetchFails c \/
       fetch e (Img.url img) = DecodeFails c)) \/
  fetch e (Img.url img) = EncodeFails x.
Proof.
  unfold download_jpeg. destruct (fetch e (Img.url img)) as [c|c|c|d];
    intros H; inversion H; subst; eauto.
Qed.

(** The two outcomes of [download]. *)
Lemma download_all_or_nothing_aux (e : env) (a : Archive.t) (w : world) :
  (exists data,
      Archive.download e a w
      = (World (disk w) (stdout w)
           (requests w ++ map (fun i => GetImage (Img.url i)) (Archive.imgs a)),
         Archive.Make (Archive.filename a) (Archive.imgs a) (Some data),
         Ok tt) /\
      length data = length (Archive.imgs a)) \/
  (exists x,
      Archive.download e a w
      = (World (disk w) (stdout w)
           (requests w ++ map (fun i => GetImage (Img.url i)) (Archive.imgs a)),
         a, Raise x)).
Proof.
  unfold Archive.download.
  destruct (tasks_dichotomy (map (download_jpeg e) (Archive.imgs a)))
    as [[vs Hvs] | (i & x & Hx)].
  - left. exists vs. rewrite Hvs, gather_all_ok. split; [reflexivity|].
    apply (f_equal length) in Hvs. rewrite !length_map in Hvs. congruence.
  - right.
    destruct (gather_raises _ (completion e (Archive.imgs a)) i x Hx)
      as (j & y & _ & ->).
    now exists y.
Qed.

(** C2, as the code has it. Whatever the order in which the fetches
    complete, [download] either stores one JPEG blob per image, in the
    order of the images, or fails as a whole and leaves the archive as it
    was, [_imgs_data] included.  The failure is that of one image: a
    [RuntimeError] naming its URL and chained to the cause when the
    request, the body or the decoding failed, and the encoder's own
    exception, unwrapped, when the JPEG encoding failed. *)
Theorem download_all_or_nothing (e : env) (a : Archive.t) (w : world) :
  (exists data,
      Archive.download e a w
      = (World (disk w) (stdout w)
           (requests w ++ map (fun i => GetImage (Img.url i)) (Archive.imgs a)),
         Archive.Make (Archive.filename a) (Archive.imgs a) (Some data),
         Ok tt) /\
      length data = length (Archive.imgs a) /\
      forall i img, Archive.imgs a !! i = Some img ->
        exists d, data !! i = Some d /\ fetch e (Img.url img) = Jpeg d) \/
  (exists i img x,
      Archive.imgs a !! i = Some img /\
      download_jpeg e img = Raise x /\
      Archive.download e a w
      = (World (disk w) (stdout w)
           (requests w ++ map (fun i => GetImage (Img.url i)) (Archive.imgs a)),
         a, Raise x) /\
      ((exists c,
           x = RuntimeErrorFrom (MsgDownloading (Img.url img)) c /\
           (fetch e (Img.url img) = FetchFails c \/
            fetch e (Img.url img) = DecodeFails c)) \/
       fetch e (Img.url img) = EncodeFails x)).
Proof.
  unfold Archive.download.
  destruct (tasks_dichotomy (map (download_jpeg e) (Archive.imgs a)))
    as [[vs Hvs] | (i & x & Hx)].
  - left. exists vs. rewrite Hvs, gather_all_ok.
    split; [reflexivity|]. split.
    + apply (f_equal length) in Hvs. rewrite !length_map in Hvs. congruence.
    + intros i img Himg.
      assert (H : map (download_jpeg e) (Archive.imgs a) !! i
                  = Some (download_jpeg e img))
        by (now rewrite list_lookup_fmap, Himg).
      rewrite Hvs, list_lookup_fmap in H.
      destruct (vs !! i) as [d|]; [|discriminate].
      exists d. split; [reflexivity|].
      apply download_jpeg_ok. simpl in H. congruence.
  - right.
    destruct (gather_raises _ (completion e (Archive.imgs a)) i x Hx)
      as (j & y & Hy & Hg).
    rewrite list_lookup_fmap in Hy.
    destruct (Archive.imgs a !! j) as [img|] eqn:Himg; [|discriminate].
    simpl in Hy. exists j, img, y. rewrite Hg.
    split; [exact Himg|]. split; [congruence|]. split; [reflexivity|].
    apply download_jpeg_raise. congruence.
Qed.

(** C2, as stated, fails: when the JPEG encoding of an image
    fails, the call fails with the encoder's exception, which neither
    names the URL nor wraps a cause. *)
Lemma download_encode_error_unwrapped :
  Archive.download gif_env one_gif empty_world
  = (World ∅ [] [GetImage "https://h/a.gif"], one_gif,
     Raise (External "cannot write mode P as JPEG")) /\
  Archive._imgs_data one_gif = None /\
  forall c,
    External "cannot write mode P as JPEG"
    <> RuntimeErrorFrom (MsgDownloading "https://h/a.gif") c.
Proof. split; [reflexivity|]. split; [reflexivity|]. discriminate. Qed.


(** ** The loop of [actions] *)

Lemma find_images_world (e : env) (url : string) (config : ImageConfig)
    (w : world) :
  exists ls,
    fst (find_images e url config w)
    = World (disk w) (stdout w ++ ls) (requests w ++ [GetPage url]).
Proof.
  unfold find_images. unfold_m. simpl.
  destruct (get_page e url) as [css|x].
  - destruct (images_of_world config (css (selector config))
                (World (disk w) (stdout w) (requests w ++ [GetPage url])))
      as [ls Hls].
    exists ls. exact Hls.
  - exists []. simpl. now rewrite app_nil_r.
Qed.

Lemma download_archive_cases (e : env) (a : Archive.t) (w : world) :
  (exists data,
      download_archive e a w
      = (World (disk w) (stdout w)
           (requests w ++ map (fun i => GetImage (Img.url i)) (Archive.imgs a)),
         Ok (Archive.Make (Archive.filename a) (Archive.imgs a) (Some data))) /\
      length data = length (Archive.imgs a)) \/
  (exists x,
      download_archive e a w
      = (World (disk w) (stdout w)
           (requests w ++ map (fun i => GetImage (Img.url i)) (Archive.imgs a)),
         Raise x)).
Proof.
  unfold download_archive.
  destruct (download_all_or_nothing_aux e a w)
    as [(data & -> & Hlen) | (x & ->)]; [left|right]; eauto.
Qed.

Lemma process_url_unfold (e : env) (args : Args) (idx : nat) (url : string)
    (w : world) :
  process_url e args idx url w =
  match bar (Z.of_nat idx) (Z.of_nat (length (URLs args))) 100
          default_filler default_empty with
  | Raise x => (w, Raise x)
  | Ok b =>
      match find_images e url (config args)
              (log w [LBar b; LProcessing url]) with
      | (w1, Raise x) => (w1, Raise x)
      | (w1, Ok images) =>
          if (length images =? 0)%nat
          then (w1, Raise (RuntimeError (MsgNoImages url)))
          else
            match get_name url (regexs args) (padding args) with
            | Raise x => (w1, Raise x)
            | Ok name =>
                match download_archive e (Archive.init name images) w1 with
                | (w2, Raise x) => (w2, Raise x)
                | (w2, Ok archive) =>
                    match Archive.save archive (directory args) w2 with
                    | (w3, Raise x) => (w3, Raise x)
                    | (w3, Ok _) => (log w3 [LErase 2], Ok tt)
                    end
                end
            end
      end
  end.
Proof.
  unfold process_url. unfold_m. simpl.
  destruct (bar _ _ _ _ _) as [b|x]; [|reflexivity].
  fold (log w [LBar b; LProcessing url]).
  destruct (find_images _ _ _ _) as [w1 [images|x]]; [|reflexivity].
  destruct (length images =? 0)%nat; [reflexivity|].
  destruct (get_name _ _ _) as [name|x]; [|reflexivity].
  destruct (download_archive _ _ _) as [w2 [archive|x]]; [|reflexivity].
  destruct (Archive.save _ _ _) as [w3 [[]|x]]; reflexivity.
Qed.

(** Whatever [process_url] writes is the archive of a non-empty image
    list with one blob per image. *)
Lemma process_url_disk (e : env) (args : Args) (idx : nat) (url : string)
    (w : world) :
  disk (fst (process_url e args idx url w)) = disk w \/
  exists name images data,
    images <> [] /\ length data = length images /\
    disk (fst (process_url e args idx url w))
    = <[path_div (directory args) name := zip (map Img.filename images) data]>
        (disk w).
Proof.
  rewrite process_url_unfold.
  destruct (bar _ _ _ _ _) as [b|x]; [|now left].
  destruct (find_images_world e url (config args)
              (log w [LBar b; LProcessing url])) as [ls Hw1].
  destruct (find_images _ _ _ _) as [w1 [images|x]]; simpl in Hw1; subst w1;
    [|now left].
  destruct (length images =? 0)%nat eqn:Hlen; [now left|].
  destruct (get_name _ _ _) as [name|x]; [|now left].
  match goal with |- context [download_archive e ?a ?w0] =>
    destruct (download_archive_cases e a w0)
      as [(data & -> & Hdata) | (x & ->)] end; [|now left].
  right. exists name, images, data. simpl in *.
  split; [intros ->; discriminate|]. split; [exact Hdata|reflexivity].
Qed.

Lemma for_urls_app (e : env) (args : Args) (l1 l2 : list string) :
  forall idx w,
    for_urls e args idx (l1 ++ l2)%list w =
    match for_urls e args idx l1 w with
    | (w1, Ok _) => for_urls e args (idx + length l1) l2 w1
    | (w1, Raise x) => (w1, Raise x)
    end.
Proof.
  induction l1 as [|u l1 IH]; intros idx w.
  - simpl. now rewrite Nat.add_0_r.
  - cbn [for_urls app length]. unfold bind at 1 2.
    destruct (process_url e args idx u w) as [w0 [[]|x]]; [|reflexivity].
    rewrite IH. now replace (S idx + length l1) with (idx + S (length l1)) by lia.
Qed.

(** C1, as the code has it. Any exception raised while one URL is
    processed, be it from naming, from an empty page, from a fetch or from
    saving, ends the whole run: [actions] raises it in the world the
    failing URL left, so that no later URL is requested, downloaded or
    saved. *)
Theorem first_error_ends_run (e : env) (args : Args)
    (processed : list string) (url : string) (later : list string)
    (w w1 w2 : world) (x : exn)
    (Hurls : URLs args = (processed ++ url :: later)%list)
    (Hdone : for_urls e args 0 processed w = (w1, Ok tt))
    (Hfail : process_url e args (length processed) url w1 = (w2, Raise x)) :
  actions e args w = (w2, Raise x).
Proof.
  unfold actions. unfold bind at 1. rewrite Hurls at 1.
  rewrite for_urls_app, Hdone. cbn [for_urls Nat.add]. unfold bind at 1.
  now rewrite Hfail.
Qed.

Lemma first_error_ends_run_witness :
  actions site_env (default_args ["https://x/2/"; "https://x/1/"; "https://x/3/"])
    empty_world
  = (fst (for_urls site_env
            (default_args ["https://x/2/"; "https://x/1/"; "https://x/3/"])
            0 ["https://x/2/"; "https://x/1/"] empty_world),
     Raise (RuntimeError (MsgNoImages "https://x/1/"))).
Proof.
  apply (first_error_ends_run site_env
           (default_args ["https://x/2/"; "https://x/1/"; "https://x/3/"])
           ["https://x/2/"] "https://x/1/" ["https://x/3/"] empty_world
           (fst (for_urls site_env
                   (default_args ["https://x/2/"; "https://x/1/"; "https://x/3/"])
                   0 ["https://x/2/"] empty_world))).
  - reflexivity.
  - vm_compute. reflexivity.
  - vm_compute. reflexivity.
Defined.

(** C1, as stated, fails: in a run over two URLs whose
    first page shows no image, the run ends with that error; the second
    URL, which alone gives an archive, is never requested and nothing is
    written. *)
Lemma run_stops_at_empty_page :
  snd (actions site_env (default_args ["https://x/1/"; "https://x/2/"])
         empty_world)
  = Raise (RuntimeError (MsgNoImages "https://x/1/")) /\
  requests (fst (actions site_env
                   (default_args ["https://x/1/"; "https://x/2/"])
                   empty_world))
  = [GetPage "https://x/1/"] /\
  disk (fst (actions site_env (default_args ["https://x/1/"; "https://x/2/"])
               empty_world)) = ∅ /\
  snd (actions site_env (default_args ["https://x/2/"]) empty_world) = Ok tt /\
  unzip (fst (actions site_env (default_args ["https://x/2/"]) empty_world))
    (path_div "out" "002.cbz")
  = Some [("001.jpg", [Byte.xff; Byte.xd8])].
Proof. repeat split; vm_compute; reflexivity. Qed.

(** C4. When the page of a URL yields no image, [process_url], having
    drawn its bar, raises the [RuntimeError] "No images found" for that
    URL right after the page request: the loop stops there, nothing is
    named, no image is requested and the disk is as it was.  More generally, whatever
    [process_url] writes is the archive of a non-empty image list with one
    blob per image, so no archive without its data reaches the disk. *)
Theorem empty_page_aborts_before_download (e : env) (args : Args) (idx : nat)
    (url : string) (w w1 : world) (b : string)
    (Hbar : bar (Z.of_nat idx) (Z.of_nat (length (URLs args))) 100
              default_filler default_empty = Ok b)
    (Hfind : find_images e url (config args) (log w [LBar b; LProcessing url])
             = (w1, Ok [])) :
  process_url e args idx url w
  = (w1, Raise (RuntimeError (MsgNoImages url))) /\
  (forall later,
      for_urls e args idx (url :: later) w
      = (w1, Raise (RuntimeError (MsgNoImages url)))) /\
  disk w1 = disk w /\
  requests w1 = (requests w ++ [GetPage url])%list /\
  (forall idx' url' w0,
      disk (fst (process_url e args idx' url' w0)) = disk w0 \/
      exists name images data,
        images <> [] /\ length data = length images /\
        disk (fst (process_url e args idx' url' w0))
        = <[path_div (directory args) name
            := zip (map Img.filename images) data]> (disk w0)).
Proof.
  assert (Hp : process_url e args idx url w
               = (w1, Raise (RuntimeError (MsgNoImages url)))).
  { rewrite process_url_unfold, Hbar, Hfind. reflexivity. }
  destruct (find_images_world e url (config args)
              (log w [LBar b; LProcessing url])) as [ls Hw1].
  rewrite Hfind in Hw1. simpl in Hw1.
  split; [exact Hp|]. split; [|split; [|split]].
  - intros later. cbn [for_urls]. unfold bind. now rewrite Hp.
  - now subst w1.
  - now subst w1.
  - intros idx' url' w0. apply process_url_disk.
Qed.

Lemma empty_page_aborts_before_download_witness :
  process_url site_env (default_args ["https://x/1/"]) 0 "https://x/1/"
    empty_world
  = (World ∅ [LBar (bar_text 0 1); LProcessing "https://x/1/"]
       [GetPage "https://x/1/"],
     Raise (RuntimeError (MsgNoImages "https://x/1/"))).
Proof.
  exact (proj1 (empty_page_aborts_before_download site_env
                  (default_args ["https://x/1/"]) 0 "https://x/1/"
                  empty_world
                  (World ∅ [LBar (bar_text 0 1); LProcessing "https://x/1/"]
                     [GetPage "https://x/1/"])
                  (bar_text 0 1) eq_refl eq_refl)).
Defined.

(** ** The progress bar *)

Lemma bar_of_taken (completed overall width taken : Z) (filler empty : string) :
  bar_taken completed overall width = Ok taken ->
  bar completed overall width filler empty
  = Ok ("[" ++ Str.mul filler taken ++ Str.mul empty (width - taken) ++ "]").
Proof. intros H. unfold bar. now rewrite H. Qed.

(** Up to ten URLs the bar has the cells it is meant to have. *)
Lemma bar_exact_up_to_10 :
  forallb bar_exact_for (seq 1 10) = true.
Proof. vm_compute. reflexivity. Qed.

(** C9 at the input [bar(11, 11)], the last bar of a run over eleven
    URLs: the product of 11 and the rounded [1 / 11 * 100] lies above 100,
    so [ceil] gives 101 filled cells where the exact proportion gives 100,
    and the bar is 101 cells wide with no empty cell. *)
Theorem bar_11_of_11_overfull (filler empty : string) :
  bar_taken 11 11 100 = Ok 101%Z /\
  exact_taken 11 11 100 = 100%Z /\
  bar 11 11 100 filler empty = Ok ("[" ++ Str.mul filler 101 ++ "]") /\
  bar_exact_for 11 = false.
Proof.
  assert (Ht : bar_taken 11 11 100 = Ok 101%Z) by (vm_compute; reflexivity).
  split; [exact Ht|]. split; [reflexivity|]. split.
  - rewrite (bar_of_taken _ _ _ _ filler empty Ht). reflexivity.
  - vm_compute. reflexivity.
Qed.

(** ** Reading entries by name *)







(** ** The older script *)

Lemma legacy_for_urls_app (e : env) (args : Args) (l1 l2 : list string) :
  forall w,
    Legacy.for_urls e args (l1 ++ l2)%list w =
    match Legacy.for_urls e args l1 w with
    | (w1, Ok _) => Legacy.for_urls e args l2 w1
    | (w1, Raise x) => (w1, Raise x)
    end.
Proof.
  induction l1 as [|u l1 IH]; intros w; [reflexivity|].
  cbn [Legacy.for_urls app]. unfold bind at 1 2.
  destruct (Legacy.process_url e args u w) as [w0 [[]|x]]; [|reflexivity].
  apply IH.
Qed.

(** X26. In the older script too the first exception ends the run:
    [actions] raises it in the world the failing URL left, and no later
    URL is processed. *)
Lemma legacy_first_error_ends_run (e : env) (args : Args)
    (processed : list string) (url : string) (later : list string)
    (w w1 w2 : world) (x : exn) :
  URLs args = (processed ++ url :: later)%list ->
  Legacy.for_urls e args processed w = (w1, Ok tt) ->
  Legacy.process_url e args url w1 = (w2, Raise x) ->
  Legacy.actions e args w = (w2, Raise x).
Proof.
  intros Hurls Hdone Hfail. unfold Legacy.actions.
  rewrite Hurls, legacy_for_urls_app, Hdone. cbn [Legacy.for_urls].
  unfold bind at 1. now rewrite Hfail.
Qed.

(** There a [png] URL is kept, an absent attribute is a [KeyError], and a
    page without images gives an empty archive. *)
Lemma legacy_differences :
  Legacy.img_from_node (img_node "1" "https://h/a.png") default_config
    empty_world
  = (empty_world, Ok (Some (Img.Make "001.jpg" "https://h/a.png"))) /\
  Legacy.img_from_node (img_node_without_id "https://h/a.jpg") default_config
    empty_world
  = (empty_world, Raise (KeyError "id")) /\
  snd (Legacy.actions site_env (default_args ["https://x/1/"]) empty_world)
  = Ok tt /\
  unzip (fst (Legacy.actions site_env (default_args ["https://x/1/"])
                empty_world))
    (path_div "out" "001.cbz")
  = Some [].
Proof. repeat split; vm_compute; reflexivity. Qed.

(** ** Scenarios *)

(** Three [img] tags numbered 1, 2, 3 give [001.jpg], [002.jpg],
    [003.jpg], in that order. *)
Example scenario_three_images :
  snd (images_of [img_node "1" "https://h/a.jpg"; img_node "2" "https://h/b.jpg";
                  img_node "3" "https://h/c.jpg"] default_config empty_world)
  = Ok [Img.Make "001.jpg" "https://h/a.jpg";
        Img.Make "002.jpg" "https://h/b.jpg";
        Img.Make "003.jpg" "https://h/c.jpg"].
Proof. reflexivity. Qed.

(** A [png] source is dropped with a printed line; the others stay. *)
Example scenario_png_dropped :
  images_of [img_node "1" "https://h/a.jpg"; img_node "2" "https://h/b.png"]
    default_config empty_world
  = (log empty_world [LDropped "https://h/b.png"],
     Ok [Img.Make "001.jpg" "https://h/a.jpg"]).
Proof. reflexivity. Qed.

(** Without the [--number] stage the trailing segment names the archive. *)
Example scenario_series_name :
  get_name "https://example.com/series-name/"
    (make_regexs default_url_name_pattern false) None
  = Ok "series-name.cbz".
Proof. reflexivity. Qed.

(** * Further properties *)

(** ** What [strip] leaves *)

Lemma lstrip_first (s : string) : first_char_space (Str.lstrip s) = false.
Proof.
  induction s as [|c s IH]; [reflexivity|].
  cbn [Str.lstrip]. destruct (Str.is_space c) eqn:Hc; [exact IH|].
  simpl. exact Hc.
Qed.

Lemma rstrip_unfold (c : ascii) (s : string) :
  Str.rstrip (String c s) =
  match Str.rstrip s with
  | EmptyString =>
      if Str.is_space c then EmptyString else String c EmptyString
  | String d r => String c (String d r)
  end.
Proof. cbn [Str.rstrip]. destruct (Str.rstrip s); reflexivity. Qed.

Lemma rstrip_last (s : string) : last_char_space (Str.rstrip s) = false.
Proof.
  induction s as [|c s IH]; [reflexivity|].
  rewrite rstrip_unfold. destruct (Str.rstrip s) as [|d r].
  - destruct (Str.is_space c) eqn:Hc; [reflexivity|]. simpl. exact Hc.
  - exact IH.
Qed.

Lemma rstrip_first (s : string) :
  first_char_space s = false -> first_char_space (Str.rstrip s) = false.
Proof.
  destruct s as [|c s]; [reflexivity|]. intros Hc.
  change (Str.is_space c = false) in Hc.
  rewrite rstrip_unfold. destruct (Str.rstrip s).
  - rewrite Hc. exact Hc.
  - exact Hc.
Qed.

Lemma lstrip_all_space (ws : string) :
  all_space ws = true -> Str.lstrip ws = EmptyString.
Proof.
  induction ws as [|c ws IH]; intros H; [reflexivity|].
  simpl in H. apply andb_true_iff in H as [Hc Hws].
  cbn [Str.lstrip]. rewrite Hc. now apply IH.
Qed.

(** X1. The URL of every image that [img_from_node] produces is the
    stripped attribute: it neither starts nor ends with whitespace. *)
Theorem img_url_has_no_edge_space (node : Node) (config : ImageConfig)
    (w w' : world) (img : Img.t)
    (H : img_from_node node config w = (w', Ok (Some img))) :
  (exists raw,
      dict_get (attributes node) (url_attr config) = Some raw /\
      Img.url img = Str.strip raw) /\
  first_char_space (Img.url img) = false /\
  last_char_space (Img.url img) = false.
Proof.
  apply img_from_node_some in H
    as (u & n & st & g & Hu & Hn & Hpng & Hs & Hg & -> & _).
  simpl. split; [now exists u|]. unfold Str.strip. split.
  - apply rstrip_first, lstrip_first.
  - apply rstrip_last.
Qed.

Lemma img_url_has_no_edge_space_witness :
  img_from_node (img_node "5" "  https://h/a.jpg  ") default_config
    empty_world
  = (empty_world, Ok (Some (Img.Make "005.jpg" "https://h/a.jpg"))) /\
  first_char_space "https://h/a.jpg" = false /\
  last_char_space "https://h/a.jpg" = false.
Proof.
  split; [reflexivity|].
  exact (proj2 (img_url_has_no_edge_space
                  (img_node "5" "  https://h/a.jpg  ") default_config
                  empty_world empty_world
                  (Img.Make "005.jpg" "https://h/a.jpg") eq_refl)).
Defined.

(** X2. A URL attribute made of whitespace only is not "empty" for
    [img_from_node]: with a number that the pattern matches, the node
    yields an image whose URL is the empty string. *)
Theorem whitespace_url_gives_empty_url (node : Node) (config : ImageConfig)
    (w : world) (ws number : string) (st : Re.mstate) (g : string)
    (Hu : dict_get (attributes node) (url_attr config) = Some ws)
    (Hws : ws <> EmptyString)
    (Hsp : all_space ws = true)
    (Hn : dict_get (attributes node) (number_attr config) = Some number)
    (Hne : number <> EmptyString)
    (Hs : Re.search_from (number_pattern config) true number = Some st)
    (Hgr : Re.ngroups (number_pattern config) <> 0)
    (Hg : Re.group1 st = Some g) :
  img_from_node node config w
  = (w, Ok (Some (Img.Make (Str.pad0 g 3 ++ ".jpg") EmptyString))).
Proof.
  unfold img_from_node. rewrite Hu, Hn. simpl.
  apply String.eqb_neq in Hws, Hne. rewrite Hws, Hne. simpl.
  rewrite (endswith_all_space ws Hsp). unfold_m. simpl. rewrite Hs. simpl.
  unfold Re.group_1. simpl. apply Nat.eqb_neq in Hgr. rewrite Hgr, Hg.
  unfold Str.strip. rewrite (lstrip_all_space ws Hsp). reflexivity.
Qed.

Lemma whitespace_url_gives_empty_url_witness :
  img_from_node (img_node "5" "  ") default_config empty_world
  = (empty_world, Ok (Some (Img.Make (Str.pad0 "5" 3 ++ ".jpg") EmptyString))).
Proof.
  refine (whitespace_url_gives_empty_url (img_node "5" "  ") default_config
            empty_world "  " "5" (Re.MState false EmptyString (Some "5")) "5"
            eq_refl _ eq_refl eq_refl _ eq_refl _ eq_refl);
    discriminate.
Defined.

(** X3. [img_from_node] touches nothing but the output: it prints
    exactly one line when it skips the node and no line when it yields an
    image or raises. *)
Theorem img_from_node_prints_iff_skips (node : Node) (config : ImageConfig)
    (w : world) :
  exists ls r,
    img_from_node node config w = (log w ls, r) /\
    match r with
    | Ok None => length ls = 1
    | Ok (Some _) | Raise _ => ls = []
    end.
Proof.
  exists (node_log config node), (node_result config node).
  split; [apply img_from_node_log|].
  unfold node_log, node_result, img_from_node.
  destruct (dict_get (attributes node) (url_attr config)) as [u|];
    [|reflexivity].
  destruct (dict_get (attributes node) (number_attr config)) as [n|];
    [|simpl; rewrite orb_true_r; reflexivity].
  destruct (negb (truthy (Some u)) || negb (truthy (Some n)));
    [reflexivity|].
  destruct (Str.endswith u "png"); [reflexivity|].
  unfold_m. simpl.
  destruct (Re.search_from _ true n) as [st|]; simpl; [|reflexivity].
  unfold Re.group_1; simpl.
  destruct (Re.ngroups _ =? 0)%nat; [reflexivity|].
  destruct (Re.group1 st); reflexivity.
Qed.

(** ** What [find_images] does and brings back *)

Lemma omap_length_le {A B} (f : A -> option B) (l : list A) :
  length (omap f l) <= length l.
Proof.
  induction l as [|a l IH]; [reflexivity|].
  cbn. destruct (f a); simpl; lia.
Qed.

(** X4. [find_images] sends exactly one request, the page's, and leaves
    the disk alone; when the page request fails it prints nothing and
    raises that failure; when it returns, it returns at most one image
    per matched node, and every image is the image of a matched node. *)
Theorem find_images_effects (e : env) (url : string) (config : ImageConfig)
    (w : world) :
  (exists ls,
      fst (find_images e url config w)
      = World (disk w) (stdout w ++ ls) (requests w ++ [GetPage url])) /\
  (forall x,
      get_page e url = Raise x ->
      find_images e url config w
      = (World (disk w) (stdout w) (requests w ++ [GetPage url]), Raise x)) /\
  (forall css images,
      get_page e url = Ok css ->
      snd (find_images e url config w) = Ok images ->
      length images <= length (css (selector config)) /\
      forall img, img ∈ images ->
        exists node,
          node ∈ css (selector config) /\ node_image config node = Some img).
Proof.
  split; [apply find_images_world|]. split.
  - intros x Hx. unfold find_images. unfold_m. simpl. now rewrite Hx.
  - intros css images Hpage Himgs.
    assert (H : snd (find_images e url config w)
                = snd (images_of (css (selector config)) config
                         (World (disk w) (stdout w)
                            (requests w ++ [GetPage url])))).
    { unfold find_images. unfold_m. simpl. now rewrite Hpage. }
    rewrite H, images_of_result in Himgs.
    destruct (first_error config (css (selector config))); [discriminate|].
    inversion Himgs; subst. split; [apply omap_length_le|].
    intros img Himg. now apply list_elem_of_omap in Himg.
Qed.

Lemma node_result_groupless (config : ImageConfig) (node : Node) :
  Re.ngroups (number_pattern config) = 0 ->
  node_result config node
  = if number_found config node then Raise IndexError else Ok None.
Proof.
  intros Hg. unfold node_result, number_found, img_from_node.
  destruct (dict_get _ (url_attr config)) as [u|]; [|reflexivity].
  destruct (dict_get _ (number_attr config)) as [n|];
    [|simpl; now rewrite orb_true_r].
  simpl. destruct (String.eqb u EmptyString); [reflexivity|].
  destruct (String.eqb n EmptyString); [reflexivity|]. simpl.
  destruct (Str.endswith u "png"); [reflexivity|].
  unfold_m. simpl.
  destruct (Re.search_from _ true n) as [st|]; simpl; [|reflexivity].
  unfold Re.group_1; simpl. now rewrite Hg.
Qed.

(** X5. With a number pattern that has no capture group, locating never
    yields an image: [images_of] raises [IndexError] as soon as a node
    has both attributes, a URL that does not end in [png] and a number
    that the pattern matches, and returns the empty list when there is
    no such node, every node being skipped. *)
Theorem groupless_pattern_yields_no_image (config : ImageConfig)
    (nodes : list Node) (w : world)
    (Hg : Re.ngroups (number_pattern config) = 0) :
  snd (images_of nodes config w)
  = (if existsb (number_found config) nodes then Raise IndexError else Ok [])
  /\
  forall node,
    node_result config node
    = if number_found config node then Raise IndexError else Ok None.
Proof.
  split; [|intros node; now apply node_result_groupless].
  rewrite images_of_result.
  induction nodes as [|node nodes IH]; [reflexivity|].
  cbn [first_error omap list_omap existsb].
  pose proof (node_result_groupless config node Hg) as Hr.
  destruct (number_found config node).
  - now rewrite Hr.
  - assert (Hi : node_image config node = None)
      by (unfold node_image; now rewrite Hr).
    rewrite Hr, Hi. exact IH.
Qed.

Lemma groupless_pattern_yields_no_image_witness :
  snd (images_of [img_node_without_id "https://h/a.jpg";
                  img_node "1" "https://h/b.jpg"] groupless_config empty_world)
  = Raise IndexError /\
  snd (images_of [img_node_without_id "https://h/a.jpg";
                  img_node "cover" "https://h/b.jpg"] groupless_config
         empty_world)
  = Ok [].
Proof.
  split.
  - exact (proj1 (groupless_pattern_yields_no_image groupless_config
                    [img_node_without_id "https://h/a.jpg";
                     img_node "1" "https://h/b.jpg"] empty_world eq_refl)).
  - exact (proj1 (groupless_pattern_yields_no_image groupless_config
                    [img_node_without_id "https://h/a.jpg";
                     img_node "cover" "https://h/b.jpg"] empty_world eq_refl)).
Defined.

(** ** More on name resolution *)

(** X6. Searching a chain [rs1 ++ rs2] is searching [rs2] from what
    [rs1] resolves to; an exception of [rs1] is the exception of the
    whole; and when [rs1] ends without a value, the whole ends without a
    value or, a further stage being handed [None], with [TypeError]. *)
Theorem sequential_search_composes (data : option string)
    (rs1 rs2 : list Re.regex) :
  match sequential_search data rs1 with
  | Ok (Some s) =>
      sequential_search data (rs1 ++ rs2) = sequential_search (Some s) rs2
  | Ok None =>
      sequential_search data (rs1 ++ rs2) = Ok None \/
      sequential_search data (rs1 ++ rs2) = Raise TypeError
  | Raise x => sequential_search data (rs1 ++ rs2) = Raise x
  end.
Proof.
  revert data. induction rs1 as [|r rs1 IH]; intros data.
  - simpl. destruct data as [s|]; [reflexivity|].
    destruct rs2 as [|r2 rs2]; [now left | now right].
  - cbn [sequential_search app].
    destruct (Re.search r data) as [[mt|]|x]; simpl;
      [|now left|reflexivity].
    destruct (Re.group_1 mt) as [d|x]; simpl; [apply IH|reflexivity].
Qed.

(** X7. What [get_name] raises when a stage matches without giving a
    value: a pattern without a group raises [IndexError]; a group that
    took no part raises [TypeError] when a further stage follows, and the
    [ValueError] of a failed resolution when the stage is the last. *)
Theorem get_name_errors_by_cause (url : string) (rs : list Re.regex)
    (r : Re.regex) (rest : list Re.regex) (padding : option Z)
    (s : string) (st : Re.mstate)
    (Hprefix : sequential_search (Some url) rs = Ok (Some s))
    (Hs : Re.search_from r true s = Some st) :
  (Re.ngroups r = 0 ->
   get_name url (rs ++ r :: rest) padding = Raise IndexError) /\
  (Re.ngroups r <> 0 -> Re.group1 st = None -> rest <> [] ->
   get_name url (rs ++ r :: rest) padding = Raise TypeError) /\
  (Re.ngroups r <> 0 -> Re.group1 st = None -> rest = [] ->
   get_name url (rs ++ r :: rest) padding
   = Raise (ValueError (MsgNameNoMatch url))).
Proof.
  unfold get_name. rewrite (sequential_search_prefix _ _ _ _ Hprefix).
  cbn [sequential_search]. unfold Re.search. rewrite Hs. simpl.
  unfold Re.group_1. simpl. split; [|split].
  - intros ->. reflexivity.
  - intros Hg Hn Hrest. apply Nat.eqb_neq in Hg. rewrite Hg, Hn. simpl.
    destruct rest; [contradiction|reflexivity].
  - intros Hg Hn ->. apply Nat.eqb_neq in Hg. rewrite Hg, Hn. reflexivity.
Qed.

Lemma get_name_errors_by_cause_witness :
  get_name "https://example.com/chapter/42/"
    ([default_url_name_pattern] ++ [Re.Plus Re.Digit]) (Some 3%Z)
  = Raise IndexError.
Proof.
  refine (proj1 (get_name_errors_by_cause "https://example.com/chapter/42/"
                   [default_url_name_pattern] (Re.Plus Re.Digit) []
                   (Some 3%Z) "42"
                   (Re.MState false EmptyString None) eq_refl eq_refl)
                eq_refl).
Defined.

(** X8. A negative padding is not "no padding": once the name is
    resolved, [get_name] raises the [ValueError] of the format
    specification. *)
Theorem get_name_negative_padding (url : string) (regexs : list Re.regex)
    (name : string) (p : Z)
    (Hname : sequential_search (Some url) regexs = Ok (Some name))
    (Hp : (p < 0)%Z) :
  get_name url regexs (Some p) = Raise (ValueError MsgFormatSpec).
Proof.
  rewrite (get_name_of_name _ _ _ _ Hname).
  assert (Hz : (p =? 0)%Z = false) by lia.
  assert (Hn : (p <? 0)%Z = true) by lia.
  rewrite Hz. unfold Str.format_pad0. now rewrite Hn.
Qed.

Lemma get_name_negative_padding_witness :
  get_name "https://example.com/chapter/42/"
    (make_regexs default_url_name_pattern true) (Some (-1)%Z)
  = Raise (ValueError MsgFormatSpec).
Proof.
  exact (get_name_negative_padding "https://example.com/chapter/42/"
           (make_regexs default_url_name_pattern true) "42" (-1)%Z
           eq_refl eq_refl).
Defined.


(** ** The matcher on one-character repetitions *)

Section Greedy.

Variable p : ascii -> bool.

Lemma star_loop_one (s : string) :
  forall n at0 g k,
    String.length s < n ->
    Re.star_loop (Re.one p) n (Re.MState at0 s g) k = greedy p s at0 g k.
Proof.
  induction s as [|c s IH]; intros n at0 g k Hn;
    (destruct n as [|n]; [lia|]).
  - reflexivity.
  - cbn [Re.star_loop greedy]. unfold Re.one at 1. cbn [Re.rest Re.group1].
    destruct (p c); [|reflexivity].
    unfold Re.progressed. cbn [Re.rest String.length].
    rewrite (proj2 (Nat.ltb_lt _ _)) by lia.
    rewrite IH by (simpl in Hn; lia). reflexivity.
Qed.

Lemma plus_one (s : string) (at0 : bool) (g : option string)
    (k : Re.mstate -> option Re.mstate) :
  Re.one p (Re.MState at0 s g)
    (fun st' =>
       Re.star_loop (Re.one p) (S (String.length (Re.rest st'))) st' k)
  = match s with
    | String c s' => if p c then greedy p s' false g k else None
    | EmptyString => None
    end.
Proof.
  unfold Re.one at 1. cbn [Re.rest Re.group1].
  destruct s as [|c s]; [reflexivity|].
  destruct (p c); [|reflexivity].
  cbn [Re.rest]. apply star_loop_one. lia.
Qed.

(** A success after a run of [p] stands, whatever comes before it. *)
Lemma greedy_app (a b : string) (g : option string)
    (k : Re.mstate -> option Re.mstate) (r : Re.mstate) :
  forall_chars p a = true ->
  greedy p b false g k = Some r ->
  greedy p (a ++ b) false g k = Some r.
Proof.
  intros Ha Hb. induction a as [|c a IH]; [exact Hb|].
  simpl in Ha. apply andb_true_iff in Ha as [Hc Ha].
  rewrite append_cons. cbn [greedy]. rewrite Hc, (IH Ha). reflexivity.
Qed.

(** The longest run is tried first. *)
Lemma greedy_longest (a b : string) (g : option string)
    (k : Re.mstate -> option Re.mstate) (r : Re.mstate) :
  forall_chars p a = true ->
  stops p b = true ->
  k (Re.MState false b g) = Some r ->
  greedy p (a ++ b) false g k = Some r.
Proof.
  intros Ha Hb Hk. induction a as [|c a IH].
  - rewrite append_nil_l. destruct b as [|d b]; [exact Hk|].
    cbn [greedy]. simpl in Hb. apply negb_true_iff in Hb.
    now rewrite Hb.
  - simpl in Ha. apply andb_true_iff in Ha as [Hc Ha].
    rewrite append_cons. cbn [greedy]. rewrite Hc, (IH Ha). reflexivity.
Qed.

End Greedy.

Lemma substring_prefix (a b : string) :
  substring 0 (String.length a) (a ++ b) = a.
Proof.
  induction a as [|c a IH].
  - destruct b; reflexivity.
  - rewrite append_cons. simpl. now rewrite IH.
Qed.

(** ** The [--number] stage, [(\d+)] *)

Lemma forall_chars_ext (p q : ascii -> bool) (s : string) :
  (forall c, p c = q c) -> forall_chars p s = forall_chars q s.
Proof.
  intros H. induction s as [|c s IH]; [reflexivity|].
  simpl. now rewrite H, IH.
Qed.

Lemma digits_match_here (ds rest : string) (at0 : bool) :
  ds <> EmptyString -> all_digits ds = true ->
  stops Re.is_digit rest = true ->
  Re.m digits_pattern 1 (Re.MState at0 (ds ++ rest) None) Some
  = Some (Re.MState false rest (Some ds)).
Proof.
  intros Hne Hds Hrest. destruct ds as [|d ds]; [contradiction|].
  unfold all_digits in Hds. simpl in Hds.
  apply andb_true_iff in Hds as [Hd Hds].
  unfold digits_pattern. cbn [Re.m].
  change (Re.m Re.Digit 2) with (Re.one Re.is_digit).
  rewrite plus_one, append_cons, Hd.
  apply greedy_longest; [exact Hds|exact Hrest|].
  cbn [Nat.eqb Re.rest Re.at_start]. do 2 f_equal.
  rewrite <- append_cons.
  replace (String.length (String d ds ++ rest) - String.length rest)
    with (String.length (String d ds))
    by (rewrite length_append; lia).
  now rewrite substring_prefix.
Qed.

Lemma digits_no_match_here (s : string) (at0 : bool) :
  stops Re.is_digit s = true ->
  Re.m digits_pattern 1 (Re.MState at0 s None) Some = None.
Proof.
  intros Hs. unfold digits_pattern. cbn [Re.m].
  change (Re.m Re.Digit 2) with (Re.one Re.is_digit).
  rewrite plus_one. destruct s as [|c s]; [reflexivity|].
  simpl in Hs. apply negb_true_iff in Hs. now rewrite Hs.
Qed.

Lemma digits_search_from (pre ds rest : string) (at0 : bool) :
  no_digit pre = true ->
  ds <> EmptyString -> all_digits ds = true ->
  stops Re.is_digit rest = true ->
  Re.search_from digits_pattern at0 (pre ++ ds ++ rest)
  = Some (Re.MState false rest (Some ds)).
Proof.
  intros Hpre Hne Hds Hrest. revert at0.
  induction pre as [|c pre IH]; intros at0.
  - rewrite append_nil_l, search_from_unfold.
    now rewrite digits_match_here.
  - unfold no_digit in Hpre. simpl in Hpre.
    apply andb_true_iff in Hpre as [Hc Hpre].
    rewrite append_cons, search_from_unfold.
    rewrite digits_no_match_here by exact Hc.
    simpl. now apply IH.
Qed.

Lemma digits_search_none (s : string) (at0 : bool) :
  no_digit s = true -> Re.search_from digits_pattern at0 s = None.
Proof.
  revert at0. induction s as [|c s IH]; intros at0 Hs.
  - reflexivity.
  - unfold no_digit in Hs. simpl in Hs.
    apply andb_true_iff in Hs as [Hc Hs].
    rewrite search_from_unfold, digits_no_match_here by exact Hc.
    simpl. now apply IH.
Qed.

(** ** The default name pattern, [^.+/([^/]+)/?$] *)

Lemma default_pattern_split :
  default_url_name_pattern
  = Re.Cat Re.Bol (Re.Cat (Re.Plus Re.Dot) url_name_tail).
Proof. reflexivity. Qed.

Lemma tail_fails_without_slash (t : string) (at0 : bool) (g : option string) :
  stops (Ascii.eqb "/") t = true ->
  Re.m url_name_tail 1 (Re.MState at0 t g) Some = None.
Proof.
  intros Ht. unfold url_name_tail. cbn [Re.m]. unfold Re.one at 1.
  cbn [Re.rest]. destruct t as [|c t]; [reflexivity|].
  cbn [stops] in Ht. apply negb_true_iff in Ht. now rewrite Ht.
Qed.

Lemma tail_fails_on_lone_slash (at0 : bool) (g : option string) :
  Re.m url_name_tail 1 (Re.MState at0 "/" g) Some = None.
Proof. reflexivity. Qed.

Lemma tail_matches (seg tl : string) (at0 : bool) (g : option string) :
  seg <> EmptyString -> lacks "/" seg = true ->
  tl = EmptyString \/ tl = "/" ->
  Re.m url_name_tail 1 (Re.MState at0 ("/" ++ seg ++ tl) g) Some
  = Some (Re.MState false EmptyString (Some seg)).
Proof.
  intros Hne Hseg Htl. destruct seg as [|c seg]; [contradiction|].
  assert (Hall : forall_chars not_slash (String c seg) = true).
  { unfold lacks in Hseg. rewrite <- Hseg. apply forall_chars_ext.
    intros d. unfold not_slash, Re.in_class. simpl.
    now rewrite orb_false_r. }
  simpl in Hall. apply andb_true_iff in Hall as [Hc Hall].
  change ("/" ++ String c seg ++ tl) with (String "/" (String c seg ++ tl)).
  unfold url_name_tail. cbn [Re.m Re.ngroups Nat.add].
  unfold Re.one at 1. cbn [Re.rest Re.group1].
  rewrite Ascii.eqb_refl. fold not_slash.
  change (fun (st : Re.mstate) (k : Re.mstate -> option Re.mstate) =>
            Re.one not_slash st k)
    with (Re.one not_slash).
  rewrite plus_one, append_cons, Hc.
  apply greedy_longest; [exact Hall| |].
  - destruct Htl as [-> | ->]; reflexivity.
  - cbn [Nat.eqb Re.rest Re.at_start].
    rewrite <- append_cons.
    replace (String.length (String c seg ++ tl) - String.length tl)
      with (String.length (String c seg))
      by (rewrite length_append; lia).
    rewrite substring_prefix.
    destruct Htl as [-> | ->]; reflexivity.
Qed.

(** No suffix of the last segment lets the tail of the pattern match. *)
Lemma greedy_dot_fails_in_segment (seg tl : string) (at0 : bool)
    (g : option string) :
  lacks "/" seg = true ->
  tl = EmptyString \/ tl = "/" ->
  greedy is_dot (seg ++ tl) at0 g
    (fun st' => Re.m url_name_tail 1 st' Some) = None.
Proof.
  intros Hseg Htl. revert at0. induction seg as [|c seg IH]; intros at0.
  - rewrite append_nil_l. destruct Htl as [-> | ->]; reflexivity.
  - unfold lacks in Hseg. simpl in Hseg.
    apply andb_true_iff in Hseg as [Hc Hseg].
    rewrite append_cons. cbn [greedy].
    rewrite (IH Hseg), tail_fails_without_slash.
    + now destruct (is_dot c).
    + cbn [stops]. now rewrite Ascii.eqb_sym.
Qed.

Lemma default_pattern_search (pre seg tl : string) :
  pre <> EmptyString -> lacks Re.newline pre = true ->
  seg <> EmptyString -> lacks "/" seg = true ->
  tl = EmptyString \/ tl = "/" ->
  Re.search_from default_url_name_pattern true (pre ++ "/" ++ seg ++ tl)
  = Some (Re.MState false EmptyString (Some seg)).
Proof.
  intros Hpne Hpre Hsne Hseg Htl.
  destruct pre as [|c pre]; [contradiction|].
  unfold lacks in Hpre. simpl in Hpre.
  apply andb_true_iff in Hpre as [Hc Hpre].
  rewrite search_from_unfold, default_pattern_split.
  cbn [Re.m Re.at_start Re.ngroups Nat.add].
  change (Re.m Re.Dot 1) with (Re.one is_dot).
  rewrite plus_one, append_cons.
  rewrite Hc. fold is_dot. fold is_dot in Hpre.
  rewrite (greedy_app is_dot pre ("/" ++ seg ++ tl) None
             (fun st' => Re.m url_name_tail 1 st' Some)
             (Re.MState false EmptyString (Some seg)) Hpre).
  - reflexivity.
  - change ("/" ++ seg ++ tl) with (String "/" (seg ++ tl)).
    cbn [greedy].
    change (is_dot "/") with true. cbn iota.
    rewrite (greedy_dot_fails_in_segment seg tl false None Hseg Htl).
    cbn [Re.first_of].
    change (String "/" (seg ++ tl)) with ("/" ++ seg ++ tl).
    now apply tail_matches.
Qed.

(** ** Names and numbers with the default patterns *)

(** X9. With the default name pattern and [--no-number], a URL
    [pre/seg] or [pre/seg/], whose [pre] is not empty and holds no
    newline and whose last segment [seg] is not empty and holds no
    slash, is named after that segment: [seg.cbz]. *)
Theorem default_name_is_last_segment (pre seg tl : string)
    (Hpne : pre <> EmptyString)
    (Hpre : lacks Re.newline pre = true)
    (Hsne : seg <> EmptyString)
    (Hseg : lacks "/" seg = true)
    (Htl : tl = EmptyString \/ tl = "/") :
  sequential_search (Some (pre ++ "/" ++ seg ++ tl))
    (make_regexs default_url_name_pattern false) = Ok (Some seg) /\
  get_name (pre ++ "/" ++ seg ++ tl)
    (make_regexs default_url_name_pattern false) None
  = Ok (seg ++ ".cbz").
Proof.
  assert (H : sequential_search (Some (pre ++ "/" ++ seg ++ tl))
                (make_regexs default_url_name_pattern false) = Ok (Some seg)).
  { unfold make_regexs. cbn [app sequential_search]. unfold Re.search.
    rewrite (default_pattern_search pre seg tl Hpne Hpre Hsne Hseg Htl).
    reflexivity. }
  split; [exact H|]. unfold get_name. now rewrite H.
Qed.

Lemma default_name_is_last_segment_witness :
  sequential_search (Some ("https://example.com" ++ "/" ++ "series-name" ++ "/"))
    (make_regexs default_url_name_pattern false) = Ok (Some "series-name") /\
  get_name ("https://example.com" ++ "/" ++ "series-name" ++ "/")
    (make_regexs default_url_name_pattern false) None
  = Ok ("series-name" ++ ".cbz").
Proof.
  refine (default_name_is_last_segment "https://example.com" "series-name" "/"
            _ eq_refl _ eq_refl (or_intror eq_refl));
    discriminate.
Defined.

Lemma number_stage (url pre seg tl a ds b : string) :
  url = pre ++ "/" ++ seg ++ tl ->
  pre <> EmptyString -> lacks Re.newline pre = true ->
  seg <> EmptyString -> lacks "/" seg = true ->
  tl = EmptyString \/ tl = "/" ->
  seg = a ++ ds ++ b ->
  no_digit a = true -> ds <> EmptyString -> all_digits ds = true ->
  stops Re.is_digit b = true ->
  sequential_search (Some url) (make_regexs default_url_name_pattern true)
  = Ok (Some ds).
Proof.
  intros -> Hpne Hpre Hsne Hseg Htl Hshape Ha Hdne Hds Hb.
  unfold make_regexs. cbn [app sequential_search]. unfold Re.search at 1.
  rewrite (default_pattern_search pre seg tl Hpne Hpre Hsne Hseg Htl).
  rewrite Hshape. simpl.
  rewrite (digits_search_from a ds b true Ha Hdne Hds Hb). reflexivity.
Qed.

(** X10. With the default name pattern and the [--number] stage, the
    archive of such a URL is named by the first run of digits of its
    last segment, left-padded with ['0'] to the padding width. *)
Theorem default_name_is_first_number (pre seg tl a ds b : string) (w : Z)
    (Hpne : pre <> EmptyString)
    (Hpre : lacks Re.newline pre = true)
    (Hsne : seg <> EmptyString)
    (Hseg : lacks "/" seg = true)
    (Htl : tl = EmptyString \/ tl = "/")
    (Hshape : seg = a ++ ds ++ b)
    (Ha : no_digit a = true)
    (Hdne : ds <> EmptyString)
    (Hds : all_digits ds = true)
    (Hb : stops Re.is_digit b = true)
    (Hw : (0 <= w)%Z) :
  get_name (pre ++ "/" ++ seg ++ tl)
    (make_regexs default_url_name_pattern true) (Some w)
  = Ok (Str.pad0 ds (Z.to_nat w) ++ ".cbz").
Proof.
  rewrite (get_name_of_name _ _ _ ds
             (number_stage _ pre seg tl a ds b eq_refl Hpne Hpre Hsne Hseg Htl
                Hshape Ha Hdne Hds Hb)).
  destruct (w =? 0)%Z eqn:Hz.
  - apply Z.eqb_eq in Hz. subst w. reflexivity.
  - unfold Str.format_pad0.
    assert (Hn : (w <? 0)%Z = false) by lia. now rewrite Hn.
Qed.

Lemma default_name_is_first_number_witness :
  get_name ("https://example.com/title" ++ "/" ++ "chapter-7-part-2" ++ "/")
    (make_regexs default_url_name_pattern true) (Some 3%Z)
  = Ok (Str.pad0 "7" (Z.to_nat 3) ++ ".cbz").
Proof.
  refine (default_name_is_first_number "https://example.com/title"
            "chapter-7-part-2" "/" "chapter-" "7" "-part-2" 3%Z
            _ eq_refl _ eq_refl (or_intror eq_refl) eq_refl eq_refl _
            eq_refl eq_refl _);
    discriminate.
Defined.

(** X11. With the [--number] stage, a URL whose last segment holds no
    digit has no name: [get_name] raises the [ValueError] carrying the
    URL, whatever the padding. *)
Theorem default_name_needs_a_digit (pre seg tl : string) (padding : option Z)
    (Hpne : pre <> EmptyString)
    (Hpre : lacks Re.newline pre = true)
    (Hsne : seg <> EmptyString)
    (Hseg : lacks "/" seg = true)
    (Htl : tl = EmptyString \/ tl = "/")
    (Hnd : no_digit seg = true) :
  get_name (pre ++ "/" ++ seg ++ tl)
    (make_regexs default_url_name_pattern true) padding
  = Raise (ValueError (MsgNameNoMatch (pre ++ "/" ++ seg ++ tl))).
Proof.
  unfold get_name, make_regexs. cbn [app sequential_search].
  unfold Re.search at 1.
  rewrite (default_pattern_search pre seg tl Hpne Hpre Hsne Hseg Htl).
  simpl. rewrite (digits_search_none seg true Hnd). reflexivity.
Qed.

Lemma default_name_needs_a_digit_witness :
  get_name ("https://example.com" ++ "/" ++ "series-name" ++ "/")
    (make_regexs default_url_name_pattern true) (Some 3%Z)
  = Raise (ValueError
             (MsgNameNoMatch
                ("https://example.com" ++ "/" ++ "series-name" ++ "/"))).
Proof.
  refine (default_name_needs_a_digit "https://example.com" "series-name" "/"
            (Some 3%Z) _ eq_refl _ eq_refl (or_intror eq_refl) eq_refl);
    discriminate.
Defined.

(** X12. With the default number pattern, an image is numbered by the
    first run of digits of its number attribute: the file name is that
    run, left-padded with ['0'] to width 3, and [.jpg]. *)
Theorem img_numbered_by_first_digits (node : Node) (config : ImageConfig)
    (w : world) (u a ds b : string)
    (Hpat : number_pattern config = digits_pattern)
    (Hu : dict_get (attributes node) (url_attr config) = Some u)
    (Hune : u <> EmptyString)
    (Hpng : Str.endswith u "png" = false)
    (Hn : dict_get (attributes node) (number_attr config)
          = Some (a ++ ds ++ b))
    (Ha : no_digit a = true)
    (Hdne : ds <> EmptyString)
    (Hds : all_digits ds = true)
    (Hb : stops Re.is_digit b = true) :
  img_from_node node config w
  = (w, Ok (Some (Img.Make (Str.pad0 ds 3 ++ ".jpg") (Str.strip u)))).
Proof.
  assert (Hnne : a ++ ds ++ b <> EmptyString).
  { destruct a; [|discriminate]. rewrite append_nil_l.
    destruct ds; [contradiction|discriminate]. }
  unfold img_from_node. rewrite Hu, Hn, Hpat. simpl.
  apply String.eqb_neq in Hune, Hnne. rewrite Hune, Hnne. simpl.
  rewrite Hpng. unfold_m. simpl.
  rewrite (digits_search_from a ds b true Ha Hdne Hds Hb). reflexivity.
Qed.

Lemma img_numbered_by_first_digits_witness :
  img_from_node (img_node "page-12-of-30" "https://h/a.jpg") default_config
    empty_world
  = (empty_world,
     Ok (Some (Img.Make (Str.pad0 "12" 3 ++ ".jpg")
                 (Str.strip "https://h/a.jpg")))).
Proof.
  refine (img_numbered_by_first_digits
            (img_node "page-12-of-30" "https://h/a.jpg") default_config
            empty_world "https://h/a.jpg" "page-" "12" "-of-30"
            eq_refl eq_refl _ eq_refl eq_refl eq_refl _ eq_refl eq_refl);
    discriminate.
Defined.

(** X13. With the default number pattern, a node whose number attribute
    holds no digit is skipped with the line "No number found", whatever
    its URL, unless the URL is empty or ends in [png]. *)
Theorem img_without_digit_skipped (node : Node) (config : ImageConfig)
    (w : world) (u n : string)
    (Hpat : number_pattern config = digits_pattern)
    (Hu : dict_get (attributes node) (url_attr config) = Some u)
    (Hune : u <> EmptyString)
    (Hpng : Str.endswith u "png" = false)
    (Hn : dict_get (attributes node) (number_attr config) = Some n)
    (Hnne : n <> EmptyString)
    (Hnd : no_digit n = true) :
  img_from_node node config w = (log w [LNoNumber u n], Ok None).
Proof.
  unfold img_from_node. rewrite Hu, Hn, Hpat. simpl.
  apply String.eqb_neq in Hune, Hnne. rewrite Hune, Hnne. simpl.
  rewrite Hpng. unfold_m. simpl.
  rewrite (digits_search_none n true Hnd). reflexivity.
Qed.

Lemma img_without_digit_skipped_witness :
  img_from_node (img_node "cover" "https://h/a.jpg") default_config
    empty_world
  = (log empty_world [LNoNumber "https://h/a.jpg" "cover"], Ok None).
Proof.
  refine (img_without_digit_skipped (img_node "cover" "https://h/a.jpg")
            default_config empty_world "https://h/a.jpg" "cover"
            eq_refl eq_refl _ eq_refl eq_refl _ eq_refl);
    discriminate.
Defined.

(** ** Which failure [download] reports *)

Lemma run_tasks_first_failure {A} (tasks : list (result A))
    (settled : list nat) (i : nat) (more : list nat) (x : exn) :
  (forall j, j ∈ settled -> forall y, tasks !! j <> Some (Raise y)) ->
  tasks !! i = Some (Raise x) ->
  forall slots, run_tasks tasks (settled ++ i :: more) slots = Raise x.
Proof.
  intros Hok Hx. induction settled as [|j settled IH]; intros slots.
  - cbn [app run_tasks]. now rewrite Hx.
  - cbn [app run_tasks].
    assert (IH' : forall slots,
               run_tasks tasks (settled ++ i :: more) slots = Raise x).
    { apply IH. intros j' Hj'. apply Hok. now apply elem_of_cons; right. }
    destruct (tasks !! j) as [[v|y]|] eqn:Hj; [apply IH'| |apply IH'].
    exfalso. apply (Hok j (proj2 (elem_of_cons _ _ _) (or_introl eq_refl)) y).
    exact Hj.
Qed.

(** X14. [download] reports the failure that comes first in completion
    order: when the tasks that settle before that of image [i] all
    succeed and the download of image [i] fails, the call raises the
    exception of image [i], whatever fails later, and the archive stays
    as it was. *)
Theorem download_reports_first_failure (e : env) (a : Archive.t) (w : world)
    (settled : list nat) (i : nat) (later : list nat) (img : Img.t) (x : exn)
    (Horder : completion e (Archive.imgs a) = (settled ++ i :: later)%list)
    (Hok : forall j img', j ∈ settled -> Archive.imgs a !! j = Some img' ->
                          exists d, download_jpeg e img' = Ok d)
    (Himg : Archive.imgs a !! i = Some img)
    (Hx : download_jpeg e img = Raise x) :
  Archive.download e a w
  = (World (disk w) (stdout w)
       (requests w ++ map (fun i => GetImage (Img.url i)) (Archive.imgs a)),
     a, Raise x).
Proof.
  unfold Archive.download, gather. rewrite Horder, <- app_assoc.
  cbn [app].
  rewrite (run_tasks_first_failure (map (download_jpeg e) (Archive.imgs a))
             settled i (later ++ seq 0 (length (map (download_jpeg e)
                                                  (Archive.imgs a)))) x).
  - reflexivity.
  - intros j Hj y Hy. rewrite list_lookup_fmap in Hy.
    destruct (Archive.imgs a !! j) as [img'|] eqn:Hj'; [|discriminate].
    destruct (Hok j img' Hj Hj') as [d Hd]. simpl in Hy. congruence.
  - now rewrite list_lookup_fmap, Himg, <- Hx.
Qed.

Lemma download_reports_first_failure_witness :
  Archive.download flaky_env three_pages empty_world
  = (World ∅ []
       (map (fun i => GetImage (Img.url i)) (Archive.imgs three_pages)),
     three_pages,
     Raise (RuntimeErrorFrom (MsgDownloading "https://h/c.jpg")
              (External "cannot identify image file"))).
Proof.
  refine (download_reports_first_failure flaky_env three_pages empty_world
            [0] 2 [1] (Img.Make "003.jpg" "https://h/c.jpg") _
            eq_refl _ eq_refl eq_refl).
  intros j img' Hj Himg'. apply list_elem_of_singleton in Hj. subst j.
  inversion Himg'; subst. now exists [Byte.xff; Byte.xd8].
Defined.

(** ** More on [save] *)

(** X15. A later [save] under the same file name replaces the earlier
    one whole: the disk is as if only the later archive had been saved;
    in particular saving the same archive twice changes nothing more. *)
Theorem save_last_wins (a b : Archive.t) (directory : string) (w : world)
    (Hname : Archive.filename a = Archive.filename b) :
  disk (fst (Archive.save b directory (fst (Archive.save a directory w))))
  = disk (fst (Archive.save b directory w)) /\
  fst (Archive.save a directory (fst (Archive.save a directory w)))
  = fst (Archive.save a directory w).
Proof.
  unfold Archive.save. rewrite Hname.
  destruct (Archive._imgs_data a), (Archive._imgs_data b); simpl;
    rewrite ?insert_insert_eq; split; reflexivity.
Qed.

Lemma save_last_wins_witness :
  disk (fst (Archive.save two_pages_done "out"
               (fst (Archive.save one_page_done "out" empty_world))))
  = disk (fst (Archive.save two_pages_done "out" empty_world)).
Proof.
  exact (proj1 (save_last_wins one_page_done two_pages_done "out"
                  empty_world eq_refl)).
Defined.

(** X16. [save] pairs images and blobs by position and stops at the
    shorter of the two sequences: the archive has as many entries as the
    shorter one, and what is beyond is left out without an error. *)
Theorem save_stops_at_shorter (a : Archive.t) (data : list bytes)
    (directory : string) (w : world)
    (Hdata : Archive._imgs_data a = Some data) :
  exists w' written,
    Archive.save a directory w = (w', Ok tt) /\
    unzip w' (path_div directory (Archive.filename a)) = Some written /\
    length written = Nat.min (length (Archive.imgs a)) (length data) /\
    forall i name blob,
      written !! i = Some (name, blob) <->
      (exists img, Archive.imgs a !! i = Some img /\ Img.filename img = name)
      /\ data !! i = Some blob.
Proof.
  unfold Archive.save. rewrite Hdata.
  eexists _, (Archive.entries a data). split; [reflexivity|].
  unfold unzip, Archive.entries. simpl.
  split; [apply lookup_insert_eq|].
  split; [now rewrite length_zip, length_map|].
  intros i name blob. rewrite lookup_zip_with_Some. split.
  - intros (n & d & Heq & Hn & Hd). inversion Heq; subst.
    rewrite list_lookup_fmap in Hn.
    destruct (Archive.imgs a !! i) as [img|]; [|discriminate].
    simpl in Hn. inversion Hn. split; [now exists img|exact Hd].
  - intros [(img & Himg & Hn) Hd]. exists name, blob.
    split; [reflexivity|]. split; [|exact Hd].
    now rewrite list_lookup_fmap, Himg, <- Hn.
Qed.

Lemma save_stops_at_shorter_witness :
  exists w' written,
    Archive.save
      (Archive.Make "001.cbz"
         [Img.Make "001.jpg" "https://h/a.jpg";
          Img.Make "002.jpg" "https://h/b.jpg"]
         (Some [[Byte.xff; Byte.xd8]]))
      "out" empty_world = (w', Ok tt) /\
    unzip w' (path_div "out" "001.cbz") = Some written /\
    length written = 1.
Proof.
  destruct (save_stops_at_shorter
              (Archive.Make "001.cbz"
                 [Img.Make "001.jpg" "https://h/a.jpg";
                  Img.Make "002.jpg" "https://h/b.jpg"]
                 (Some [[Byte.xff; Byte.xd8]]))
              [[Byte.xff; Byte.xd8]] "out" empty_world eq_refl)
    as (w' & written & Hsave & Hread & Hlen & _).
  exists w', written. split; [exact Hsave|]. split; [exact Hread|exact Hlen].
Defined.


(** ** The pipeline of one URL and the run *)

Lemma download_archive_all_jpeg (e : env) (a : Archive.t) (w : world) :
  (forall img, img ∈ Archive.imgs a ->
               exists d, fetch e (Img.url img) = Jpeg d) ->
  download_archive e a w
  = (World (disk w) (stdout w)
       (requests w ++ map (fun i => GetImage (Img.url i)) (Archive.imgs a)),
     Ok (Archive.Make (Archive.filename a) (Archive.imgs a)
           (Some (map (jpeg_of e) (Archive.imgs a))))).
Proof.
  intros Hall. unfold download_archive, Archive.download.
  assert (Htasks : map (download_jpeg e) (Archive.imgs a)
                   = map Ok (map (jpeg_of e) (Archive.imgs a))).
  { induction (Archive.imgs a) as [|img imgs IH]; [reflexivity|].
    cbn [map]. rewrite IH.
    - f_equal. unfold download_jpeg, jpeg_of.
      destruct (Hall img) as [d Hd]; [apply elem_of_cons; now left|].
      now rewrite Hd.
    - intros img' Hin. apply Hall. apply elem_of_cons. now right. }
  rewrite Htasks, gather_all_ok. reflexivity.
Qed.

(** X17. When the page of a URL yields images, the name resolves and
    every image downloads, [process_url] requests the images in their
    order, writes [directory / name] with each image's file name paired
    with its JPEG bytes, and then prints the erase sequence for two
    lines, however many lines the locating printed in between. *)
Theorem process_url_success (e : env) (args : Args) (idx : nat)
    (url : string) (w w1 : world) (b name : string) (images : list Img.t)
    (Hbar : bar (Z.of_nat idx) (Z.of_nat (length (URLs args))) 100
              default_filler default_empty = Ok b)
    (Hfind : find_images e url (config args) (log w [LBar b; LProcessing url])
             = (w1, Ok images))
    (Hsome : images <> [])
    (Hname : get_name url (regexs args) (padding args) = Ok name)
    (Hall : forall img, img ∈ images ->
                        exists d, fetch e (Img.url img) = Jpeg d) :
  process_url e args idx url w
  = (World
       (<[path_div (directory args) name
          := zip (map Img.filename images) (map (jpeg_of e) images)]> (disk w1))
       (stdout w1 ++ [LErase 2])
       (requests w1 ++ map (fun i => GetImage (Img.url i)) images),
     Ok tt).
Proof.
  rewrite process_url_unfold, Hbar, Hfind.
  destruct images as [|img images]; [contradiction|].
  cbn [length Nat.eqb]. rewrite Hname.
  rewrite download_archive_all_jpeg by exact Hall.
  reflexivity.
Qed.

Lemma process_url_success_witness :
  process_url site_env (default_args ["https://x/2/"]) 0 "https://x/2/"
    empty_world
  = (World
       (<[path_div "out" "002.cbz" := [("001.jpg", [Byte.xff; Byte.xd8])]]> ∅)
       [LBar (bar_text 0 1); LProcessing "https://x/2/"; LErase 2]
       [GetPage "https://x/2/"; GetImage "https://h/a.jpg"],
     Ok tt).
Proof.
  refine (process_url_success site_env (default_args ["https://x/2/"]) 0
            "https://x/2/" empty_world
            (World ∅ [LBar (bar_text 0 1); LProcessing "https://x/2/"]
               [GetPage "https://x/2/"])
            (bar_text 0 1) "002.cbz" [Img.Make "001.jpg" "https://h/a.jpg"]
            eq_refl eq_refl _ eq_refl _).
  - discriminate.
  - intros img _. now exists [Byte.xff; Byte.xd8].
Defined.

Lemma page_requests_app (l1 l2 : list request) :
  page_requests (l1 ++ l2) = (page_requests l1 ++ page_requests l2)%list.
Proof. apply omap_app. Qed.

Lemma page_requests_images (imgs : list Img.t) :
  page_requests (map (fun i => GetImage (Img.url i)) imgs) = [].
Proof. induction imgs as [|i imgs IH]; [reflexivity|exact IH]. Qed.

(** What one URL adds to the page requests and to the disk. *)
Lemma process_url_trace (e : env) (args : Args) (idx : nat) (url : string)
    (w : world) :
  (page_requests (requests (fst (process_url e args idx url w)))
   = page_requests (requests w) \/
   page_requests (requests (fst (process_url e args idx url w)))
   = (page_requests (requests w) ++ [url])%list) /\
  (snd (process_url e args idx url w) = Ok tt ->
   page_requests (requests (fst (process_url e args idx url w)))
   = (page_requests (requests w) ++ [url])%list) /\
  (disk (fst (process_url e args idx url w)) = disk w \/
   exists name files,
     get_name url (regexs args) (padding args) = Ok name /\
     disk (fst (process_url e args idx url w))
     = <[path_div (directory args) name := files]> (disk w)).
Proof.
  rewrite process_url_unfold.
  destruct (bar _ _ _ _ _) as [b|x];
    [|split; [now left|split; [discriminate|now left]]].
  destruct (find_images_world e url (config args)
              (log w [LBar b; LProcessing url])) as [ls Hw1].
  destruct (find_images _ _ _ _) as [w1 [images|x]]; simpl in Hw1; subst w1.
  2:{ simpl. rewrite page_requests_app.
      split; [now right|split; [discriminate|now left]]. }
  destruct (length images =? 0)%nat.
  { simpl. rewrite page_requests_app.
    split; [now right|split; [discriminate|now left]]. }
  destruct (get_name _ _ _) as [name|x].
  2:{ simpl. rewrite page_requests_app.
      split; [now right|split; [discriminate|now left]]. }
  match goal with |- context [download_archive e ?a ?w0] =>
    destruct (download_archive_cases e a w0)
      as [(data & -> & Hdata) | (x & ->)] end.
  - simpl. rewrite !page_requests_app, page_requests_images, app_nil_r.
    split; [now right|]. split; [reflexivity|].
    right. now exists name, (zip (map Img.filename images) data).
  - simpl. rewrite !page_requests_app, page_requests_images, app_nil_r.
    split; [now right|split; [discriminate|now left]].
Qed.

Lemma for_urls_step (e : env) (args : Args) (idx : nat) (url : string)
    (urls : list string) (w : world) :
  for_urls e args idx (url :: urls) w =
  match process_url e args idx url w with
  | (w0, Ok _) => for_urls e args (S idx) urls w0
  | (w0, Raise x) => (w0, Raise x)
  end.
Proof. reflexivity. Qed.

Lemma for_urls_pages (e : env) (args : Args) (urls : list string) :
  forall idx w,
    exists k,
      page_requests (requests (fst (for_urls e args idx urls w)))
      = (page_requests (requests w) ++ take k urls)%list /\
      (snd (for_urls e args idx urls w) = Ok tt -> k = length urls).
Proof.
  induction urls as [|u urls IH]; intros idx w.
  - exists 0. simpl. now rewrite app_nil_r.
  - rewrite for_urls_step.
    destruct (process_url_trace e args idx u w) as (Hp & Hok & _).
    destruct (process_url e args idx u w) as [w0 [[]|x]]; simpl in Hp, Hok.
    + destruct (IH (S idx) w0) as (k & Hk & Hlen).
      exists (S k). rewrite Hk, (Hok eq_refl), <- app_assoc.
      split; [reflexivity|]. intros H. simpl. now rewrite (Hlen H).
    + destruct Hp as [Hp | Hp].
      * exists 0. simpl. rewrite Hp, app_nil_r. split; [reflexivity|].
        discriminate.
      * exists 1. simpl. rewrite Hp. split; [reflexivity|]. discriminate.
Qed.

Lemma actions_world (e : env) (args : Args) (w : world) :
  disk (fst (actions e args w))
  = disk (fst (for_urls e args 0 (URLs args) w)) /\
  requests (fst (actions e args w))
  = requests (fst (for_urls e args 0 (URLs args) w)) /\
  (snd (actions e args w) = Ok tt ->
   snd (for_urls e args 0 (URLs args) w) = Ok tt).
Proof.
  unfold actions. unfold_m.
  destruct (for_urls e args 0 (URLs args) w) as [w0 [[]|x]]; simpl;
    [|now repeat split].
  destruct (bar _ _ _ _ _); simpl; now repeat split.
Qed.

(** X18. A run requests the pages of its URLs one after the other in
    the order given: the page requests it adds are a prefix of the URL
    list, and the whole list when the run succeeds. *)
Theorem actions_requests_pages_in_order (e : env) (args : Args) (w : world) :
  exists k,
    page_requests (requests (fst (actions e args w)))
    = (page_requests (requests w) ++ take k (URLs args))%list /\
    (snd (actions e args w) = Ok tt -> k = length (URLs args)).
Proof.
  destruct (actions_world e args w) as (_ & Hreq & Hok).
  destruct (for_urls_pages e args (URLs args) 0 w) as (k & Hk & Hlen).
  exists k. rewrite Hreq. split; [exact Hk|].
  intros H. apply Hlen, Hok, H.
Qed.

Lemma for_urls_disk (e : env) (args : Args) (urls : list string) :
  forall idx w,
    (forall p, is_Some (disk w !! p) ->
               is_Some (disk (fst (for_urls e args idx urls w)) !! p)) /\
    (forall p,
        disk (fst (for_urls e args idx urls w)) !! p <> disk w !! p ->
        exists url name,
          url ∈ urls /\
          get_name url (regexs args) (padding args) = Ok name /\
          p = path_div (directory args) name).
Proof.
  induction urls as [|u urls IH]; intros idx w.
  - simpl. split; [auto|]. intros p Hp. now contradiction Hp.
  - rewrite for_urls_step.
    destruct (process_url_trace e args idx u w) as (_ & _ & Hd).
    destruct (process_url e args idx u w) as [w0 r]. simpl in Hd.
    assert (Hstep :
      (forall p, is_Some (disk w !! p) -> is_Some (disk w0 !! p)) /\
      (forall p, disk w0 !! p <> disk w !! p ->
         exists name,
           get_name u (regexs args) (padding args) = Ok name /\
           p = path_div (directory args) name)).
    { destruct Hd as [-> | (name & files & Hname & ->)].
      - split; [auto|]. intros p Hp. now contradiction Hp.
      - split.
        + intros p Hp. apply lookup_insert_is_Some.
          destruct (decide (path_div (directory args) name = p));
            [now left | now right].
        + intros p Hp. exists name. split; [exact Hname|].
          destruct (decide (path_div (directory args) name = p)) as [<-|Hne];
            [reflexivity|].
          exfalso. apply Hp. now apply lookup_insert_ne. }
    destruct Hstep as [Hkeep Hnew].
    destruct r as [[]|x]; simpl.
    + destruct (IH (S idx) w0) as [IHkeep IHnew]. split.
      * intros p Hp. apply IHkeep, Hkeep, Hp.
      * intros p Hp.
        assert (Hlater : disk w0 !! p = disk w !! p ->
                  exists url name,
                    url ∈ u :: urls /\
                    get_name url (regexs args) (padding args) = Ok name /\
                    p = path_div (directory args) name).
        { intros Hsame. destruct (IHnew p) as (url & name & Hin & Hname & Hp').
          - now rewrite Hsame.
          - exists url, name. split; [apply elem_of_cons; now right|].
            now split. }
        destruct Hd as [Hd | (name & files & Hname & Hd)].
        -- apply Hlater. now rewrite Hd.
        -- destruct (decide (path_div (directory args) name = p))
             as [<-|Hne].
           ++ exists u, name. split; [apply elem_of_cons; now left|].
              now split.
           ++ apply Hlater. rewrite Hd. now apply lookup_insert_ne.
    + split; [exact Hkeep|]. intros p Hp.
      destruct (Hnew p Hp) as (name & Hname & Hp').
      exists u, name. split; [apply elem_of_cons; now left|]. now split.
Qed.

(** X19. A run never removes a file, and it writes no file but the
    archives of its URLs: a path whose content differs after the run is
    [directory / name] for the name that [get_name] gives one of the
    URLs. *)
Theorem actions_only_writes_archives (e : env) (args : Args) (w : world) :
  (forall p, is_Some (disk w !! p) ->
             is_Some (disk (fst (actions e args w)) !! p)) /\
  (forall p,
      disk (fst (actions e args w)) !! p <> disk w !! p ->
      exists url name,
        url ∈ URLs args /\
        get_name url (regexs args) (padding args) = Ok name /\
        p = path_div (directory args) name).
Proof.
  destruct (actions_world e args w) as (Hdisk & _ & _). rewrite Hdisk.
  apply for_urls_disk.
Qed.


(** ** The bar over runs of up to 200 URLs *)

Lemma bar_within_one_200 : forallb bar_within_one (seq 1 200) = true.
Proof. vm_compute. reflexivity. Qed.

(** X20. For a run of up to 200 URLs the bar renders at every step, and
    its number of filled cells is the exact proportion rounded up, or
    one cell more: never fewer, never two more. *)
Theorem bar_taken_within_one (overall completed : nat)
    (Hpos : 1 <= overall) (Hmax : overall <= 200)
    (Hle : completed <= overall) :
  exists t,
    bar_taken (Z.of_nat completed) (Z.of_nat overall) 100 = Ok t /\
    (exact_taken (Z.of_nat completed) (Z.of_nat overall) 100 <= t)%Z /\
    (t <= exact_taken (Z.of_nat completed) (Z.of_nat overall) 100 + 1)%Z.
Proof.
  pose proof bar_within_one_200 as H.
  rewrite List.forallb_forall in H.
  assert (Ho : List.In overall (seq 1 200)) by (apply List.in_seq; lia).
  specialize (H overall Ho). unfold bar_within_one in H.
  rewrite List.forallb_forall in H.
  assert (Hc : List.In completed (seq 0 (S overall)))
    by (apply List.in_seq; lia).
  specialize (H completed Hc).
  destruct (bar_taken _ _ _) as [t|x]; [|discriminate].
  apply andb_true_iff in H as [H1 H2]. exists t. split; [reflexivity|]. lia.
Qed.

Lemma bar_taken_within_one_witness :
  exists t,
    bar_taken (Z.of_nat 11) (Z.of_nat 11) 100 = Ok t /\
    (exact_taken (Z.of_nat 11) (Z.of_nat 11) 100 <= t)%Z /\
    (t <= exact_taken (Z.of_nat 11) (Z.of_nat 11) 100 + 1)%Z.
Proof.
  refine (bar_taken_within_one 11 11 _ _ _); lia.
Defined.

(** ** [Cleared] over text *)

Lemma count_newlines_append (a b : string) :
  ClearedText.count_newlines (a ++ b)
  = ClearedText.count_newlines a + ClearedText.count_newlines b.
Proof.
  induction a as [|c a IH]; [reflexivity|].
  rewrite append_cons. simpl. rewrite IH. lia.
Qed.

Lemma join_cons (a b : string) (rest : list string) :
  ClearedText.join (a :: b :: rest)
  = a ++ ClearedText.newline_str ++ ClearedText.join (b :: rest).
Proof. reflexivity. Qed.

Lemma count_newlines_join (a : string) (rest : list string) :
  ClearedText.count_newlines (ClearedText.join (a :: rest)) + 1
  = length (a :: rest) + inner_newlines (a :: rest).
Proof.
  revert a. induction rest as [|b rest IH]; intros a.
  - simpl. lia.
  - rewrite join_cons, !count_newlines_append.
    specialize (IH b). cbn [length inner_newlines] in *.
    change (ClearedText.count_newlines ClearedText.newline_str) with 1. lia.
Qed.

Lemma repeat_nat_length (s : string) (n : nat) :
  String.length (Str.repeat_nat s n) = n * String.length s.
Proof.
  induction n as [|n IH]; [reflexivity|].
  cbn [Str.repeat_nat]. rewrite length_append, IH. lia.
Qed.

(** X21. For a [Cleared] built from at least one string, [clear_str]
    holds one erase sequence for each newline that printing the object
    writes: one per argument and one per newline inside an argument.
    Built from no argument, it erases nothing. *)
Theorem cleared_erases_what_it_prints (args : list string) :
  ClearedText._lines (ClearedText.init args)
  = match args with
    | [] => 0
    | _ => ClearedText.count_newlines
             (ClearedText.printed (ClearedText.init args))
    end /\
  ClearedText._lines (ClearedText.init args)
  = length args + inner_newlines args /\
  ClearedText.clear_str (ClearedText.init args)
  = Str.repeat_nat ClearedText.erase (length args + inner_newlines args) /\
  String.length (ClearedText.clear_str (ClearedText.init args))
  = (length args + inner_newlines args) * 8.
Proof.
  assert (Hlines : ClearedText._lines (ClearedText.init args)
                   = length args + inner_newlines args).
  { destruct args as [|a rest]; [reflexivity|].
    unfold ClearedText.init. cbn [ClearedText._lines].
    apply count_newlines_join. }
  split; [|split; [exact Hlines|split]].
  - destruct args as [|a rest]; [reflexivity|].
    unfold ClearedText.printed, ClearedText.init.
    cbn [ClearedText._lines ClearedText._data].
    rewrite count_newlines_append.
    change (ClearedText.count_newlines ClearedText.newline_str) with 1.
    reflexivity.
  - unfold ClearedText.clear_str. now rewrite Hlines.
  - unfold ClearedText.clear_str. rewrite Hlines, repeat_nat_length.
    reflexivity.
Qed.

(** ** The older script, image by image *)

(** X22. On a node that has both attributes and whose URL does not end
    in [png], the older script's [img_from_node] and the package's do
    the same. *)
Theorem legacy_agrees_off_png (node : Node) (config : ImageConfig)
    (w : world) (vn vu : option string)
    (Hn : attributes node !! number_attr config = Some vn)
    (Hu : attributes node !! url_attr config = Some vu)
    (Hpng : forall u, vu = Some u -> Str.endswith u "png" = false) :
  Legacy.img_from_node node config w = img_from_node node config w.
Proof.
  unfold Legacy.img_from_node, img_from_node, Legacy.dict_index, dict_get.
  rewrite Hn, Hu. unfold_m. simpl.
  destruct (negb (truthy vu) || negb (truthy vn)); [reflexivity|].
  destruct vu as [u|]; [|reflexivity].
  destruct vn as [n|]; [|reflexivity].
  now rewrite (Hpng u eq_refl).
Qed.

Lemma legacy_agrees_off_png_witness :
  Legacy.img_from_node (img_node "7" "https://h/a.jpg") default_config
    empty_world
  = img_from_node (img_node "7" "https://h/a.jpg") default_config empty_world.
Proof.
  refine (legacy_agrees_off_png (img_node "7" "https://h/a.jpg")
            default_config empty_world (Some "7") (Some "https://h/a.jpg")
            eq_refl eq_refl _).
  intros u Hu. inversion Hu; subst. reflexivity.
Defined.

(** X23. On a node that lacks the number attribute, or has it and lacks
    the URL attribute, the older script raises [KeyError] for the
    missing key and prints nothing, where the package prints its line
    and skips the node. *)
Theorem legacy_absent_attribute_raises (node : Node) (config : ImageConfig)
    (w : world) :
  (attributes node !! number_attr config = None ->
   Legacy.img_from_node node config w
   = (w, Raise (KeyError (number_attr config))) /\
   img_from_node node config w
   = (log w [LNotPresent (dict_get (attributes node) (url_attr config)) None],
      Ok None)) /\
  (forall vn,
      attributes node !! number_attr config = Some vn ->
      attributes node !! url_attr config = None ->
      Legacy.img_from_node node config w
      = (w, Raise (KeyError (url_attr config))) /\
      img_from_node node config w = (log w [LNotPresent None vn], Ok None)).
Proof.
  split.
  - intros Hn. split.
    + unfold Legacy.img_from_node, Legacy.dict_index. now rewrite Hn.
    + assert (Hg : dict_get (attributes node) (number_attr config) = None)
        by (unfold dict_get; now rewrite Hn).
      pose proof (img_from_node_falsy node config w) as H.
      rewrite Hg in H. now apply H; left.
  - intros vn Hn Hu. split.
    + unfold Legacy.img_from_node, Legacy.dict_index. now rewrite Hn, Hu.
    + assert (Hgu : dict_get (attributes node) (url_attr config) = None)
        by (unfold dict_get; now rewrite Hu).
      assert (Hgn : dict_get (attributes node) (number_attr config) = vn)
        by (unfold dict_get; now rewrite Hn).
      pose proof (img_from_node_falsy node config w) as H.
      rewrite Hgu, Hgn in H. now apply H; right.
Qed.

(** X24. The older script has no [png] test: a node whose URL ends in
    [png], with a number that the pattern matches, yields an image
    there, where the package drops it with its line. *)
Theorem legacy_keeps_png (node : Node) (config : ImageConfig) (w : world)
    (u number : string) (st : Re.mstate) (g : string)
    (Hu : attributes node !! url_attr config = Some (Some u))
    (Hpng : Str.endswith u "png" = true)
    (Hn : attributes node !! number_attr config = Some (Some number))
    (Hne : number <> EmptyString)
    (Hs : Re.search_from (number_pattern config) true number = Some st)
    (Hgr : Re.ngroups (number_pattern config) <> 0)
    (Hg : Re.group1 st = Some g) :
  Legacy.img_from_node node config w
  = (w, Ok (Some (Img.Make (Str.pad0 g 3 ++ ".jpg") (Str.strip u)))) /\
  img_from_node node config w = (log w [LDropped u], Ok None).
Proof.
  assert (Hu0 : u <> EmptyString) by (intros ->; discriminate).
  apply String.eqb_neq in Hu0, Hne. split.
  - unfold Legacy.img_from_node, Legacy.dict_index. rewrite Hn, Hu.
    unfold_m. simpl. rewrite Hu0, Hne. simpl. rewrite Hs. simpl.
    unfold Re.group_1. simpl. apply Nat.eqb_neq in Hgr.
    now rewrite Hgr, Hg.
  - unfold img_from_node, dict_get. rewrite Hn, Hu. simpl.
    rewrite Hu0, Hne. simpl. now rewrite Hpng.
Qed.

Lemma legacy_keeps_png_witness :
  Legacy.img_from_node (img_node "1" "https://h/a.png") default_config
    empty_world
  = (empty_world,
     Ok (Some (Img.Make (Str.pad0 "1" 3 ++ ".jpg")
                 (Str.strip "https://h/a.png")))) /\
  img_from_node (img_node "1" "https://h/a.png") default_config empty_world
  = (log empty_world [LDropped "https://h/a.png"], Ok None).
Proof.
  refine (legacy_keeps_png (img_node "1" "https://h/a.png") default_config
            empty_world "https://h/a.png" "1"
            (Re.MState false EmptyString (Some "1")) "1"
            eq_refl eq_refl eq_refl _ eq_refl _ eq_refl);
    discriminate.
Defined.

(** X25. The older script does not test for an empty image list: when
    the page of a URL yields no image and the name resolves,
    [process_url] requests nothing more and writes an archive without
    entries. *)
Theorem legacy_empty_page_writes_empty_archive (e : env) (args : Args)
    (url name : string) (w w1 : world)
    (Hfind : Legacy.find_images e url (config args) (log w [LProcessing url])
             = (w1, Ok []))
    (Hname : get_name url (regexs args) (padding args) = Ok name) :
  Legacy.process_url e args url w
  = (World (<[path_div (directory args) name := []]> (disk w1))
       (stdout w1) (requests w1),
     Ok tt).
Proof.
  unfold Legacy.process_url. unfold_m. simpl.
  fold (log w [LProcessing url]). rewrite Hfind, Hname. simpl.
  unfold Legacy.download, Archive.save, Archive.entries. simpl.
  pose proof (gather_all_ok (@nil bytes) (completion e [])) as Hg.
  cbn [map] in Hg. rewrite Hg. simpl. now rewrite app_nil_r.
Qed.

Lemma legacy_empty_page_writes_empty_archive_witness :
  Legacy.process_url site_env (default_args ["https://x/1/"]) "https://x/1/"
    empty_world
  = (World (<[path_div "out" "001.cbz" := []]> ∅)
       [LProcessing "https://x/1/"] [GetPage "https://x/1/"],
     Ok tt).
Proof.
  exact (legacy_empty_page_writes_empty_archive site_env
           (default_args ["https://x/1/"]) "https://x/1/" "001.cbz"
           empty_world
           (World ∅ [LProcessing "https://x/1/"] [GetPage "https://x/1/"])
           eq_refl eq_refl).
Defined.

Lemma legacy_first_error_ends_run_witness :
  Legacy.actions site_env
    (default_args ["https://x/2/"; "https://x/abc/"; "https://x/3/"])
    empty_world
  = (fst (Legacy.for_urls site_env
            (default_args ["https://x/2/"; "https://x/abc/"; "https://x/3/"])
            ["https://x/2/"; "https://x/abc/"] empty_world),
     Raise (ValueError (MsgNameNoMatch "https://x/abc/"))).
Proof.
  apply (legacy_first_error_ends_run site_env
           (default_args ["https://x/2/"; "https://x/abc/"; "https://x/3/"])
           ["https://x/2/"] "https://x/abc/" ["https://x/3/"] empty_world
           (fst (Legacy.for_urls site_env
                   (default_args
                      ["https://x/2/"; "https://x/abc/"; "https://x/3/"])
                   ["https://x/2/"] empty_world))).
  - reflexivity.
  - vm_compute. reflexivity.
  - vm_compute. reflexivity.
Defined.
